(** * Pin Payments gateway ([billing/gateways/pin_gateway.py])

    A shallow embedding of [PinGateway]: the money codec used by
    [_pin_base] and by the charge builder, the request builders, the
    response classifier [_pin_response] and the operations [purchase],
    [authorize], [capture], [credit], [store], together with the
    properties of the gateway's specification. *)

From Stdlib Require Import ZArith Lia String Ascii DecimalString DecimalZ DecimalPos.
From stdpp Require Import gmap strings list fin_maps.

Local Open Scope string_scope.
Local Open Scope Z_scope.

(** ** Python's [decimal.Decimal]

    A finite decimal is a signed coefficient and an exponent; its value is
    [coef * 10 ^ expo].  Arithmetic results are rounded to the precision of
    the ambient context (28 significant digits, half-even, in Python's
    default context).  NaN, the infinities and the exponent limits of the
    context are outside the model, and so are binary floats. *)

Record decimal := Dec { coef : Z; expo : Z }.

Definition context_prec : Z := 28.

Fixpoint ndigits_fuel (fuel : nat) (n : Z) : Z :=
  match fuel with
  | O => 1
  | S f => if n <? 10 then 1 else 1 + ndigits_fuel f (n / 10)
  end.

(** [len(str(n))] for [0 <= n]. *)
Definition ndigits (n : Z) : Z := ndigits_fuel (Z.to_nat (Z.log2 n)) n.

(** [Decimal._fix]: round the coefficient to [prec] significant digits,
    ties to even. *)
Definition dec_fix (prec : Z) (d : decimal) : decimal :=
  let a := Z.abs (coef d) in
  let n := ndigits a in
  if n <=? prec then d
  else
    let k := n - prec in
    let q := a / 10 ^ k in
    let r := a mod 10 ^ k in
    let q' := if (10 ^ k <? 2 * r) || ((2 * r =? 10 ^ k) && Z.odd q)
              then q + 1 else q in
    Dec (Z.sgn (coef d) * q') (expo d + k).

Definition dec_mul (a b : decimal) : decimal :=
  dec_fix context_prec (Dec (coef a * coef b) (expo a + expo b)).

(** [Decimal(x) / Decimal("100.00")].  The divisor is the constant
    [10000E-2], so the exact quotient is again a decimal, [c * 10^(e-2)];
    the context rounds it.  (CPython may pick another exponent for the same
    value; decimals are compared by value, as Python's [==] does.) *)
Definition dec_div_100_00 (d : decimal) : decimal :=
  dec_fix context_prec (Dec (coef d) (expo d - 2)).

(** [int(d)]: truncation toward zero. *)
Definition dec_to_int (d : decimal) : Z :=
  if 0 <=? expo d then coef d * 10 ^ expo d
  else Z.quot (coef d) (10 ^ (- expo d)).

(** Python's [==] on decimals: equality of values. *)
Definition dec_eq (a b : decimal) : Prop :=
  let m := Z.min (expo a) (expo b) in
  coef a * 10 ^ (expo a - m) = coef b * 10 ^ (expo b - m).

Definition dec_eqb (a b : decimal) : bool :=
  let m := Z.min (expo a) (expo b) in
  coef a * 10 ^ (expo a - m) =? coef b * 10 ^ (expo b - m).

(** [str(n)] and the integer literals accepted by [Decimal(str)]. *)
Definition str_of_Z (z : Z) : string := NilZero.string_of_int (Z.to_int z).

Definition Z_of_str (s : string) : option Z :=
  option_map Z.of_int (NilZero.int_of_string s).

(** ** Money *)

(** The amount handed to the gateway: a Python [int] or a [Decimal]. *)
Inductive money :=
| MInt (z : Z)
| MDec (d : decimal).


(** [money * 100] *)
Definition money_times_100 (m : money) : money :=
  match m with
  | MInt z => MInt (z * 100)
  | MDec d => MDec (dec_mul d (Dec 100 0))
  end.

(** [int(x)] *)
Definition money_int (m : money) : Z :=
  match m with
  | MInt z => z
  | MDec d => dec_to_int d
  end.

(** [str(int(money*100))], the ['amount'] entry of [_pin_base]. *)
Definition toMinorUnits (m : money) : string :=
  str_of_Z (money_int (money_times_100 m)).

(** [Decimal(s)] restricted to integer literals (an optional minus sign
    and digits), the form in which the wire carries minor units. *)
Definition decimal_of_int_literal (s : string) : option decimal :=
  option_map (fun z => Dec z 0) (Z_of_str s).

(** *** The codec in the words of the specification *)








(** ** Python values, the heap and the gateway's world *)

(** Locations of heap objects. *)
Abbreviation loc := nat.

(** The values that travel through the gateway: decoded JSON scalars,
    references to dict and list objects, decimals (the converted charge
    amount) and [PinCard] instances held as a foreign key. *)
Inductive val :=
| VNone
| VBool (b : bool)
| VInt (z : Z)
| VStr (s : string)
| VDec (d : decimal)
| VRef (l : loc)
| VCard (pk : nat).

(** Mutable objects: [copy] and [del] act on these, so that two names for
    one dict see each other's updates. *)
Inductive pyobj :=
| ODict (d : gmap string val)
| OList (xs : list val).

Inductive exn :=
| AttributeError
| KeyError (k : val)
| TypeError
| ValueError
| NameError (name : string)
| NotImplementedError
| InvalidOperation
| TransportError (msg : string)
| DanglingRef.  (* a reference outside the heap; no run produces one *)

Inductive result (A : Type) :=
| Ok (a : A)
| Raise (e : exn).
Arguments Ok {A} a.
Arguments Raise {A} e.

Inductive http_method := POST | PUT.

(** Outbound JSON bodies: strings, and the nested card block. *)
Inductive pval :=
| PStr (s : string)
| PDict (d : gmap string string).

Record request := Request {
  req_method : http_method;
  req_uri : string;
  req_auth : string * string;
  req_headers : list (string * string);
  req_data : gmap string pval
}.

Inductive signal :=
| transaction_was_successful
| transaction_was_unsuccessful.

Record notification := Notification {
  ntf_signal : signal;
  ntf_type : string;
  ntf_response : val
}.

Inductive model := PinCard | PinCharge | PinCustomer.

(** A model instance: its primary key once saved, and the attributes set
    on it. *)
Record instance := Instance {
  inst_model : model;
  inst_pk : option nat;
  inst_attrs : gmap string val
}.

(** The world an operation runs in: the heap of dict and list objects, the
    three tables of the Store (a row's index is its primary key), the log
    of [save()] calls, the requests handed to the Transport and the
    notifications published. *)
Record world := World {
  heap : list pyobj;
  cards : list (gmap string val);
  charges : list (gmap string val);
  customers : list (gmap string val);
  saves : list (model * nat);
  sent : list request;
  signals : list notification
}.

Definition set_heap (h : list pyobj) (w : world) : world :=
  World h (cards w) (charges w) (customers w) (saves w) (sent w) (signals w).

Definition table (m : model) (w : world) : list (gmap string val) :=
  match m with
  | PinCard => cards w
  | PinCharge => charges w
  | PinCustomer => customers w
  end.

Definition set_table (m : model) (t : list (gmap string val)) (w : world) : world :=
  match m with
  | PinCard => World (heap w) t (charges w) (customers w) (saves w) (sent w) (signals w)
  | PinCharge => World (heap w) (cards w) t (customers w) (saves w) (sent w) (signals w)
  | PinCustomer => World (heap w) (cards w) (charges w) t (saves w) (sent w) (signals w)
  end.

Definition log_save (m : model) (pk : nat) (w : world) : world :=
  World (heap w) (cards w) (charges w) (customers w) (saves w ++ [(m, pk)])
        (sent w) (signals w).

Definition log_request (r : request) (w : world) : world :=
  World (heap w) (cards w) (charges w) (customers w) (saves w)
        (sent w ++ [r]) (signals w).

Definition log_signal (n : notification) (w : world) : world :=
  World (heap w) (cards w) (charges w) (customers w) (saves w)
        (sent w) (signals w ++ [n]).

(** *** The monad of the operations: state and exceptions.  An exception
    keeps the effects that happened before it. *)

Definition M (A : Type) : Type := world -> result A * world.

Definition ret {A} (a : A) : M A := fun w => (Ok a, w).

Definition raise {A} (e : exn) : M A := fun w => (Raise e, w).

Definition bind {A B} (m : M A) (k : A -> M B) : M B :=
  fun w =>
    match m w with
    | (Ok a, w') => k a w'
    | (Raise e, w') => (Raise e, w')
    end.

Definition lift {A} (r : result A) : M A := fun w => (r, w).

Definition gets {A} (f : world -> A) : M A := fun w => (Ok (f w), w).

Definition modify (f : world -> world) : M unit := fun w => (Ok tt, f w).

Notation "'do' x <- m ; k" := (bind m (fun x => k))
  (at level 10, x name, m at level 100, k at level 200).
Notation "'do_' m ; k" := (bind m (fun _ => k))
  (at level 10, m at level 100, k at level 200).

(** *** Operations on Python values *)

Definition val_is_str (k : string) (v : val) : bool :=
  match v with VStr s => String.eqb s k | _ => false end.

(** [key in d] on a dict *)
Definition has_key {A} (d : gmap string A) (key : string) : bool :=
  match d !! key with Some _ => true | None => false end.

(** [key in v] *)
Definition py_contains (key : string) (v : val) : M bool :=
  fun w =>
    match v with
    | VRef l =>
        match heap w !! l with
        | Some (ODict d) => (Ok (has_key d key), w)
        | Some (OList xs) => (Ok (existsb (val_is_str key) xs), w)
        | None => (Raise DanglingRef, w)
        end
    | VStr s =>
        (Ok (match String.index 0 key s with Some _ => true | None => false end), w)
    | _ => (Raise TypeError, w)
    end.

(** [v[key]] for a string key *)
Definition py_getitem (v : val) (key : string) : M val :=
  fun w =>
    match v with
    | VRef l =>
        match heap w !! l with
        | Some (ODict d) =>
            match d !! key with
            | Some x => (Ok x, w)
            | None => (Raise (KeyError (VStr key)), w)
            end
        | Some (OList _) => (Raise TypeError, w)
        | None => (Raise DanglingRef, w)
        end
    | _ => (Raise TypeError, w)
    end.

(** [del v[key]] *)
Definition py_delitem (v : val) (key : string) : M unit :=
  fun w =>
    match v with
    | VRef l =>
        match heap w !! l with
        | Some (ODict d) =>
            match d !! key with
            | Some _ => (Ok tt, set_heap (<[l := ODict (delete key d)]> (heap w)) w)
            | None => (Raise (KeyError (VStr key)), w)
            end
        | Some (OList _) => (Raise TypeError, w)
        | None => (Raise DanglingRef, w)
        end
    | _ => (Raise TypeError, w)
    end.

(** [copy.copy(v)]: a new object with the same entries for a dict or a
    list, the value itself for an immutable value. *)
Definition py_copy (v : val) : M val :=
  fun w =>
    match v with
    | VRef l =>
        match heap w !! l with
        | Some o => (Ok (VRef (length (heap w))), set_heap (heap w ++ [o]) w)
        | None => (Raise DanglingRef, w)
        end
    | _ => (Ok v, w)
    end.

(** [v.items()] *)
Definition py_items (v : val) : M (gmap string val) :=
  fun w =>
    match v with
    | VRef l =>
        match heap w !! l with
        | Some (ODict d) => (Ok d, w)
        | Some (OList _) => (Raise AttributeError, w)
        | None => (Raise DanglingRef, w)
        end
    | _ => (Raise AttributeError, w)
    end.

(** Truth value of [v], as [or] tests it. *)
Definition py_truthy (v : val) : M bool :=
  fun w =>
    match v with
    | VNone => (Ok false, w)
    | VBool b => (Ok b, w)
    | VInt z => (Ok (negb (z =? 0)), w)
    | VStr s => (Ok (negb (String.eqb s "")), w)
    | VDec d => (Ok (negb (coef d =? 0)), w)
    | VRef l =>
        match heap w !! l with
        | Some (ODict d) => (Ok (negb (bool_decide (d = ∅))), w)
        | Some (OList xs) => (Ok (negb (bool_decide (xs = []))), w)
        | None => (Raise DanglingRef, w)
        end
    | VCard _ => (Ok true, w)
    end.

(** [SSIG]: the table from the success flag to the status and the signal. *)
Definition SSIG (success : bool) : string * signal :=
  if success then ("SUCCESS", transaction_was_successful)
  else ("FAILURE", transaction_was_unsuccessful).

(** [SSIG[v]]: a dict lookup by hash and equality, so [1] and [0] find
    the entries of [True] and [False]; a dict or a list is unhashable. *)
Definition SSIG_getitem (v : val) : result (string * signal) :=
  match v with
  | VBool b => Ok (SSIG b)
  | VInt 1 => Ok (SSIG true)
  | VInt 0 => Ok (SSIG false)
  | VDec d =>
      if dec_eqb d (Dec 1 0) then Ok (SSIG true)
      else if dec_eqb d (Dec 0 0) then Ok (SSIG false)
      else Raise (KeyError v)
  | VRef _ => Raise TypeError
  | _ => Raise (KeyError v)
  end.

(** Sequencing of pure computations that may raise. *)
Definition rbind {A B} (r : result A) (k : A -> result B) : result B :=
  match r with
  | Ok a => k a
  | Raise e => Raise e
  end.

Notation "'try' x <- r ; k" := (rbind r (fun x => k))
  (at level 10, x name, r at level 100, k at level 200).

(** [d[key]] on a dict of strings *)
Definition dict_getitem (d : gmap string string) (key : string) : result string :=
  match d !! key with
  | Some x => Ok x
  | None => Raise (KeyError (VStr key))
  end.

#[global] Instance decimal_eq_dec : EqDecision decimal.
Proof. solve_decision. Defined.

#[global] Instance val_eq_dec : EqDecision val.
Proof. solve_decision. Defined.

(** *** Model instances and the Store *)

(** Modelled from the spec: the fields of the models of
    [billing.models.pin_models] ([amount], [error_message] of the Charge):
    reading a declared field that was never set gives [None]. *)
Definition getattr (i : instance) (k : string) : val :=
  default VNone (inst_attrs i !! k).

Definition setattr (i : instance) (k : string) (v : val) : instance :=
  Instance (inst_model i) (inst_pk i) (<[k := v]> (inst_attrs i)).

(** [for key, value in items: if key != 'card': setattr(i, key, value)] *)
Definition setattr_items_except_card (i : instance) (items : gmap string val)
  : instance :=
  map_fold (fun key value acc =>
              if bool_decide (key <> "card") then setattr acc key value else acc)
           i items.

(** Modelled from the spec: the Store's create and save ([i.save()] of
    the models of [billing.models.pin_models]): an instance without a
    primary key is inserted and gets the next key, one with a key
    overwrites its row. *)
Definition save (i : instance) : M instance :=
  fun w =>
    let m := inst_model i in
    let t := table m w in
    match inst_pk i with
    | None =>
        let pk := length t in
        (Ok (Instance m (Some pk) (inst_attrs i)),
         log_save m pk (set_table m (t ++ [inst_attrs i]) w))
    | Some pk =>
        (Ok i, log_save m pk (set_table m (<[pk := inst_attrs i]> t) w))
    end.

(** Modelled from the spec: the Store's find-by-token for Customers
    ([PinCustomer.objects.get(token=...)], whose model is declared in
    [billing.models.pin_models]).  The token is the Customer's key, so the
    first row carrying it is the row; [None] stands for [DoesNotExist]. *)
Definition lookup_customer (token : string) (w : world) : option instance :=
  match list_find (fun row => row !! "token" = Some (VStr token)) (customers w) with
  | Some (pk, row) => Some (Instance PinCustomer (Some pk) row)
  | None => None
  end.

Definition find_customer (token : string) : M (option instance) :=
  gets (lookup_customer token).

(** The contents of the Store: its three tables and the log of saves. *)
Definition db (w : world)
  : list (gmap string val) * list (gmap string val) * list (gmap string val)
    * list (model * nat) :=
  (cards w, charges w, customers w, saves w).

(** [m] leaves the component [f] of the world as it found it, whether it
    returns or raises. *)
Definition keeps {A X} (f : world -> X) (m : M A) : Prop :=
  forall w r w', m w = (r, w') -> f w' = f w.


(** ** The gateway *)

(** Modelled from the spec: [CreditCard], declared in [billing]: the PAN,
    the expiry month and year, the verification code and the two names
    (spec, data model), under the attribute names the gateway reads. *)
Record CreditCard := {
  number : string;
  month : Z;
  year : Z;
  verification_value : string;
  first_name : string;
  last_name : string
}.

(** The [options] dict of the public operations: string-valued entries
    plus the nested dict under ['billing_address']. *)
Record options_t := Options {
  scalars : gmap string string;
  billing_address : option (gmap string string)
}.

(** What every operation returns: [{'status', 'response', 'obj'}]. *)
Record gateway_result := GatewayResult {
  status : string;
  response : val;
  obj : option instance
}.

(** ["%02d" % n] *)
Definition fmt_02d (n : Z) : string :=
  if (0 <=? n) && (n <? 10) then "0" +:+ str_of_Z n else str_of_Z n.

Section PinGateway.

(** The resolved configuration ([self.secret_key], [self.endpoint]). *)
Variable secret_key : string.
Variable endpoint : string.

(** The Transport: what [requests.<method>(...).json()] answers to a
    request, a decoded JSON value living on the heap, or the exception
    the network raised. *)
Variable transport : request -> result val.

(** [hasattr(PinCard(), key)]: the attributes that the [PinCard] model
    declares in [billing.models.pin_models], taken as a parameter. *)
Variable card_hasattr : string -> bool.

(** [Decimal(s)] on a string: the grammar of literals that [decimal]
    accepts, taken as a parameter ([decimal_of_int_literal] is its
    restriction to integer literals). *)
Variable decimal_of_string : string -> option decimal.

Definition default_currency : string := "AUD".
Definition version : string := "1".

(** The request that [_pin_request] hands to [requests]. *)
Definition build_request (method : http_method) (url : string)
           (data : gmap string pval) : request :=
  let uri := "https://" +:+ endpoint +:+ "/" +:+ version +:+ url in
  let auth := (secret_key, "") in
  let headers := [("content-type", "application/json")] in
  Request method uri auth headers data.

(** [_pin_request] *)
Definition _pin_request (method : http_method) (url : string)
           (data : gmap string pval) : M val :=
  let req := build_request method url data in
  do_ modify (log_request req);
  lift (transport req).

(** [_pin_response] *)
Definition _pin_response (resp : val) (signal_type : string)
           (obj : option instance) : M gateway_result :=
  do has_response <- py_contains "response" resp;
  do rs <-
    (if has_response : bool then
       do resp <- py_getitem resp "response";
       do has_success <- py_contains "success" resp;
       if has_success : bool then
         do success <- py_getitem resp "success";
         ret (resp, success)
       else ret (resp, VBool true)
     else ret (resp, VBool false));
  let '(resp, success) := rs in
  do ss <- lift (SSIG_getitem success);
  let '(status, signal) := ss in
  do_ modify (log_signal (Notification signal signal_type resp));
  ret (GatewayResult status resp obj).

(** [options.get(key, default)] *)
Definition options_get (options : option options_t) (key dflt : string)
  : result string :=
  match options with
  | None => Raise AttributeError
  | Some o => Ok (default dflt (scalars o !! key))
  end.

(** [options[key]] *)
Definition options_getitem (options : option options_t) (key : string)
  : result string :=
  match options with
  | None => Raise TypeError
  | Some o => dict_getitem (scalars o) key
  end.

(** [key in options] *)
Definition options_contains (key : string) (options : option options_t)
  : result bool :=
  match options with
  | None => Raise TypeError
  | Some o => Ok (has_key (scalars o) key)
  end.

(** [_pin_base] *)
Definition _pin_base (money : money) (options : option options_t)
  : result (gmap string pval) :=
  let amount := toMinorUnits money in
  try email <- options_get options "email" "";
  try description <- options_get options "description" "";
  try currency <- options_get options "currency" default_currency;
  try ip_address <- options_get options "ip" "";
  Ok (list_to_map [
        ("amount", PStr amount);
        ("email", PStr email);
        ("description", PStr description);
        ("currency", PStr currency);
        ("ip_address", PStr ip_address)]).

(** [_pin_card] *)
Definition _pin_card (credit_card : CreditCard) (options : option options_t)
  : result (gmap string string) :=
  match options with
  | None => Raise TypeError
  | Some o =>
      match billing_address o with
      | None => Raise (KeyError (VStr "billing_address"))
      | Some address =>
          try address_line1 <- dict_getitem address "address1";
          let address_line2 := default "" (address !! "address2") in
          try address_city <- dict_getitem address "city";
          try address_postcode <- dict_getitem address "zip";
          try address_state <- dict_getitem address "state";
          try address_country <- dict_getitem address "country";
          Ok (list_to_map [
                ("number", number credit_card);
                ("expiry_month", fmt_02d (month credit_card));
                ("expiry_year", str_of_Z (year credit_card));
                ("cvc", verification_value credit_card);
                ("name", first_name credit_card +:+ " " +:+ last_name credit_card);
                ("address_line1", address_line1);
                ("address_line2", address_line2);
                ("address_city", address_city);
                ("address_postcode", address_postcode);
                ("address_state", address_state);
                ("address_country", address_country)])
      end
  end.

(** [Decimal(v)] *)
Definition to_decimal (v : val) : M decimal :=
  fun w =>
    match v with
    | VInt z => (Ok (Dec z 0), w)
    | VBool b => (Ok (Dec (if b then 1 else 0) 0), w)
    | VDec d => (Ok d, w)
    | VStr s =>
        match decimal_of_string s with
        | Some d => (Ok d, w)
        | None => (Raise InvalidOperation, w)
        end
    | VRef l =>
        match heap w !! l with
        | Some (ODict _) => (Raise TypeError, w)
        | Some (OList _) => (Raise ValueError, w)
        | None => (Raise DanglingRef, w)
        end
    | VNone | VCard _ => (Raise TypeError, w)
    end.

(** [Decimal(x) / Decimal("100.00")], the conversion of the wire amount
    back to major units. *)
Definition fromMinorUnits (v : val) : M decimal :=
  do d <- to_decimal v;
  ret (dec_div_100_00 d).

(** The card block of [purchase] and [store]:
    [card = PinCard()], the loop over [data['card'].items()] guarded by
    [hasattr], the two names, [card.save()]. *)
Definition build_card (card_data : gmap string string) (credit_card : CreditCard)
  : instance :=
  let card := Instance PinCard None
                (VStr <$> filter (fun kv => card_hasattr kv.1 = true) card_data) in
  let card := setattr card "first_name" (VStr (first_name credit_card)) in
  setattr card "last_name" (VStr (last_name credit_card)).

Definition save_card (card_data : gmap string string) (credit_card : CreditCard)
  : M instance :=
  save (build_card card_data credit_card).

(** The charge block of [purchase] and [capture]: the loop over
    [response.items()], the amount, the error message, [charge.save()]. *)
Definition save_charge (charge : instance) (response : val) : M instance :=
  do items <- py_items response;
  let charge := setattr_items_except_card charge items in
  do amount <- fromMinorUnits (getattr charge "amount");
  let charge := setattr charge "amount" (VDec amount) in
  do keep <- py_truthy (getattr charge "error_message");
  let charge := setattr charge "error_message"
                  (if keep : bool then getattr charge "error_message" else VStr "") in
  save charge.

(** [response = copy(resp['response']); del response['card']['name']] *)
Definition copy_response (resp : val) : M val :=
  do env <- py_getitem resp "response";
  do response <- py_copy env;
  do card <- py_getitem response "card";
  do_ py_delitem card "name";
  ret response.

(** [commit and 'response' in resp] *)
Definition commit_and_response (commit : bool) (resp : val) : M bool :=
  if commit then py_contains "response" resp else ret false.

(** [purchase] *)
Definition purchase (money : money) (credit_card : CreditCard)
           (options : option options_t) (commit : bool) : M gateway_result :=
  do data <- lift (_pin_base money options);
  do card_data <- lift (_pin_card credit_card options);
  let data := <["card" := PDict card_data]> data in
  do resp <- _pin_request POST "/charges" data;
  do persist <- commit_and_response commit resp;
  do charge <-
    (if persist : bool then
       do response <- copy_response resp;
       do card <- save_card card_data credit_card;
       let charge := Instance PinCharge None
                       {["card" := VCard (default 0%nat (inst_pk card))]} in
       do charge <- save_charge charge response;
       ret (Some charge)
     else ret None);
  _pin_response resp "purchase" charge.

(** [authorize]: the name [card] of the last line is bound nowhere. *)
Definition authorize (money : money) (credit_card : CreditCard)
           (options : option options_t) : M gateway_result :=
  do data <- lift (_pin_card credit_card options);
  do resp <- _pin_request POST "/cards" (PStr <$> data);
  do card <- raise (NameError "card");
  _pin_response resp "authorize" card.

(** [capture] *)
Definition capture_data (money : money) (authorization : string)
           (options : option options_t) : result (gmap string pval) :=
  try data <- _pin_base money options;
  if String.prefix "cus_" authorization then
    Ok (<["customer_token" := PStr authorization]> data)
  else if String.prefix "card_" authorization then
    Ok (<["card_token" := PStr authorization]> data)
  else Ok data.

Definition capture (money : money) (authorization : string)
           (options : option options_t) (commit : bool) : M gateway_result :=
  do data <- lift (capture_data money authorization options);
  do resp <- _pin_request POST "/charges" data;
  do persist <- commit_and_response commit resp;
  do charge <-
    (if persist : bool then
       do response <- copy_response resp;
       let charge := Instance PinCharge None ∅ in
       do charge <- save_charge charge response;
       ret (Some charge)
     else ret None);
  _pin_response resp "capture" charge.

(** [void], [recurring], [unstore] *)
Definition void (identification : string) (options : option options_t)
  : M gateway_result := raise NotImplementedError.

Definition recurring (money : money) (credit_card : CreditCard)
           (options : option options_t) : M gateway_result :=
  raise NotImplementedError.

Definition unstore (identification : string) (options : option options_t)
  : M gateway_result := raise NotImplementedError.

(** [credit] *)
Definition credit (money : money) (identification : string)
           (options : option options_t) : M gateway_result :=
  let url := "/" +:+ identification +:+ "/refunds" in
  do resp <- _pin_request POST url ∅;
  _pin_response resp "credit" None.

(** [store] *)
Definition store (credit_card : CreditCard) (options : option options_t)
           (commit : bool) : M gateway_result :=
  do email <- lift (options_getitem options "email");
  do card_data <- lift (_pin_card credit_card options);
  let data : gmap string pval :=
    list_to_map [("email", PStr email); ("card", PDict card_data)] in
  do has_token <- lift (options_contains "token" options);
  do resp <-
    (if has_token : bool then
       do token <- lift (options_getitem options "token");
       _pin_request PUT ("/customers/" +:+ token) data
     else _pin_request POST "/customers" data);
  do has_token <- lift (options_contains "token" options);
  do customer <-
    (if has_token : bool then
       do token <- lift (options_getitem options "token");
       find_customer token
     else ret None);
  do persist <- commit_and_response commit resp;
  do customer <-
    (if persist : bool then
       do response <- copy_response resp;
       do card <- save_card card_data credit_card;
       let card_ref := VCard (default 0%nat (inst_pk card)) in
       let customer :=
         match customer with
         | None => Instance PinCustomer None {["card" := card_ref]}
         | Some customer => setattr customer "card" card_ref
         end in
       do items <- py_items response;
       let customer := setattr_items_except_card customer items in
       do customer <- save customer;
       ret (Some customer)
     else ret customer);
  _pin_response resp "store" customer.

End PinGateway.

(** The customer that [store] looks up: the one carrying [options['token']],
    if the options have a token and the Store has such a customer. *)
Definition token_customer (options : option options_t) (w : world)
  : option instance :=
  match options with
  | Some o =>
      match scalars o !! "token" with
      | Some token => lookup_customer token w
      | None => None
      end
  | None => None
  end.

(** The decoded reply [resp] carries a top-level ["response"] key. *)
Definition has_envelope (w : world) (resp : val) : Prop :=
  (py_contains "response" resp w).1 = Ok true.

(** The decoded reply of the Transport sits at [lr] and holds the envelope
    [le] under ["response"]. *)
Definition reply_at (w : world) (lr le : loc) (d env : gmap string val) : Prop :=
  heap w !! lr = Some (ODict d) /\
  d !! "response" = Some (VRef le) /\
  heap w !! le = Some (ODict env).

(** The envelope holds the card object [lc] under ["card"]; the reply is
    a tree, so the card is neither the reply nor the envelope. *)
Definition card_at (w : world) (lr le lc : loc) (env card : gmap string val) : Prop :=
  env !! "card" = Some (VRef lc) /\
  heap w !! lc = Some (ODict card) /\
  lr <> lc /\ le <> lc.

(** The heap after [response = copy(resp['response'])] and
    [del response['card']['name']]: the copy is a new object, the deletion
    lands in the card object that the envelope shares with its copy. *)
Definition heap_after (w : world) (env card : gmap string val) (lc : loc)
  : list pyobj :=
  <[lc := ODict (delete "name" card)]> (heap w ++ [ODict env])%list.

(** What the caller of an operation observes once the persistence branch
    has run: the card object has lost its ["name"], the envelope still
    points to it, and a returned result (and the notification sent last)
    carries that very envelope. *)
Definition name_removed (le lc : loc) (env card : gmap string val)
           (signal_type : string) (out : result gateway_result * world) : Prop :=
  heap out.2 !! lc = Some (ODict (delete "name" card)) /\
  heap out.2 !! le = Some (ODict env) /\
  forall res, out.1 = Ok res ->
    response res = VRef le /\
    exists sg, last (signals out.2) = Some (Notification sg signal_type (VRef le)).

(** The tail that [purchase], [capture] and [store] share once the reply
    [resp = VRef lr] is in: the test [commit and 'response' in resp], the
    persistence branch (which starts with the copy of the envelope and goes
    on with [rest]), and the call of [_pin_response]. *)
Definition tail_of_operation (lr : loc) (rest : val -> M (option instance))
           (dflt : option instance) (signal_type : string) (commit : bool)
  : M gateway_result :=
  do persist <- commit_and_response commit (VRef lr);
  do x <- (if persist : bool then
             do response <- copy_response (VRef lr);
             rest response
           else ret dflt);
  _pin_response (VRef lr) signal_type x.

(** The request that [store] sends: a PUT to the customer named by
    [options['token']], or a POST to the collection. *)
Definition store_request (sk ep : string) (options : option options_t)
           (data : gmap string pval) : request :=
  match options with
  | Some o =>
      match scalars o !! "token" with
      | Some token => build_request sk ep PUT ("/customers/" +:+ token) data
      | None => build_request sk ep POST "/customers" data
      end
  | None => build_request sk ep POST "/customers" data
  end.

(** The persistence branch of [store] after the copy of the envelope. *)
Definition store_rest (hasattr : string -> bool) (card_data : gmap string string)
           (credit_card : CreditCard) (customer : option instance)
           (response : val) : M (option instance) :=
  do card <- save_card hasattr card_data credit_card;
  let card_ref := VCard (default 0%nat (inst_pk card)) in
  let customer :=
    match customer with
    | None => Instance PinCustomer None {["card" := card_ref]}
    | Some customer => setattr customer "card" card_ref
    end in
  do items <- py_items response;
  let customer := setattr_items_except_card customer items in
  do customer <- save customer;
  ret (Some customer).

(** The row that [store] saves for the customer: the entries of the
    envelope but its card, over the attributes the customer had, with the
    card reference set to the new StoredCard. *)
Definition customer_row (env : gmap string val) (card_pk : nat)
           (old : gmap string val) : gmap string val :=
  delete "card" env ∪ <["card" := VCard card_pk]> old.

(** ** Construction of the gateway *)

(** [django.conf.settings], as far as [__init__] reads it: the attribute
    [MERCHANT_TEST_MODE] and the nested dict [MERCHANT_SETTINGS], either of
    which may be absent. *)
Record settings_t := Settings {
  MERCHANT_TEST_MODE : option bool;
  MERCHANT_SETTINGS : option (gmap string (gmap string (gmap string string)))
}.

(** The attributes that [__init__] sets on [self]. *)
Record PinGateway := Gateway {
  test_mode : bool;
  gw_secret_key : string;
  gw_endpoint : string
}.

(** [__init__] returns the gateway or raises [GatewayNotConfigured]. *)
Inductive configured :=
| Configured (g : PinGateway)
| GatewayNotConfigured (msg : string).

Definition display_name : string := "Pin Payments".

Definition endpoints : gmap string string :=
  list_to_map [("LIVE", "api.pin.net.au"); ("TEST", "test-api.pin.net.au")].

Definition not_configured : configured :=
  GatewayNotConfigured
    ("The '" +:+ display_name +:+ "' gateway is not correctly configured.").

(** [__init__]: an [AttributeError] or a [KeyError] on the way becomes
    [GatewayNotConfigured]. *)
Definition __init__ (settings : settings_t) : configured :=
  match MERCHANT_TEST_MODE settings with
  | None => not_configured
  | Some tm =>
      let mode := if tm : bool then "TEST" else "LIVE" in
      match MERCHANT_SETTINGS settings with
      | None => not_configured
      | Some merchant_settings =>
          match merchant_settings !! "pin" with
          | None => not_configured
          | Some pin =>
              match pin !! mode with
              | None => not_configured
              | Some of_mode =>
                  match of_mode !! "SECRET" with
                  | None => not_configured
                  | Some secret =>
                      match endpoints !! mode with
                      | None => not_configured
                      | Some ep => Configured (Gateway tm secret ep)
                      end
                  end
              end
          end
      end
  end.

(** ** What the operations have in common *)

(** An operation that returns has published one notification, of the
    signal that goes with its status, tagged [signal_type] and carrying the
    response of the result; one that raises has published none. *)
Definition notifies_once {A} (signal_type : string) (status_of : A -> string)
           (response_of : A -> val) (m : M A) : Prop :=
  forall w r w', m w = (r, w') ->
    match r with
    | Ok res =>
        exists b : bool,
          status_of res = (SSIG b).1 /\
          signals w' =
            (signals w ++ [Notification (SSIG b).2 signal_type (response_of res)])%list
    | Raise _ => signals w' = signals w
    end.

(** The keys of the billing address that [_pin_card] reads with
    [address[key]]. *)
Definition required_address_keys : list string :=
  ["address1"; "city"; "zip"; "state"; "country"].

(** The instance [i] is the row of its table that its primary key names. *)
Definition stored_in (w : world) (i : instance) : Prop :=
  exists pk, inst_pk i = Some pk /\ table (inst_model i) w !! pk = Some (inst_attrs i).

(** The row that [purchase] and [capture] save for the charge: the entries
    of the envelope but its card, over the attributes [old] the charge was
    created with, then the amount in major units and the error message. *)
Definition charge_row (env old : gmap string val) (amount : decimal)
           (message : string) : gmap string val :=
  <["error_message" := VStr message]>
    (<["amount" := VDec (dec_div_100_00 amount)]> (delete "card" env ∪ old)).

(** ** Fixtures: a card, its options, a stub Transport and canned replies *)

Module Fixtures.

Definition card : CreditCard :=
  {| number := "4200000000000000"; month := 5; year := 2030;
     verification_value := "123"; first_name := "Ada"; last_name := "Lovelace" |}.

Definition address : gmap string string :=
  list_to_map [("address1", "1 Main St"); ("city", "Perth"); ("zip", "6000");
               ("state", "WA"); ("country", "AU")].

Definition options : option options_t :=
  Some (Options (list_to_map [("email", "ada@example.org")]) (Some address)).

Definition options_with_token : option options_t :=
  Some (Options (list_to_map [("email", "ada@example.org"); ("token", "cus_1")])
                (Some address)).

(** The attributes of the stored card: the wire fields and the two names. *)
Definition hasattr (key : string) : bool :=
  bool_decide (key ∈ ["number"; "expiry_month"; "expiry_year"; "cvc";
                      "address_line1"; "address_line2"; "address_city";
                      "address_postcode"; "address_state"; "address_country";
                      "first_name"; "last_name"]).

(** The reply [{"response": {"success": <success>, "token": <token>,
    "amount": "999", "error_message": null, "card": {"token": "card_1",
    "name": "x"}}}], decoded at locations 0, 1 and 2. *)
Definition envelope (success : bool) (token : string) : gmap string val :=
  list_to_map [("success", VBool success); ("token", VStr token);
               ("amount", VStr "999"); ("error_message", VNone);
               ("card", VRef 2%nat)].

Definition card_object : gmap string val :=
  list_to_map [("token", VStr "card_1"); ("name", VStr "x")].

Definition reply_heap (success : bool) (token : string) : list pyobj :=
  [ODict {["response" := VRef 1%nat]};
   ODict (envelope success token);
   ODict card_object].

(** The reply [{"error": "invalid_resource"}]. *)
Definition error_heap : list pyobj :=
  [ODict {["error" := VStr "invalid_resource"]}].


Definition transport (r : request) : result val := Ok (VRef 0%nat).

Definition world_with (h : list pyobj) : world := World h [] [] [] [] [] [].

(** A Store that already holds the customer [cus_1]. *)
Definition world_with_customer (h : list pyobj) : world :=
  World h [] [] [{["token" := VStr "cus_1"]}] [] [] [].

Definition sk : string := "secret".
Definition host : string := "test-api.pin.net.au".

End Fixtures.

(** ** Runs of the operations on the fixtures *)

Module Runs.
Import Fixtures.

Definition amount : money := MDec (Dec 999 (-2)).

(** [purchase(9.99, card, options, commit)] against the stub Transport. *)
Definition purchase_run (h : list pyobj) (commit : bool)
  : result gateway_result * world :=
  purchase sk host transport hasattr decimal_of_int_literal
           amount card options commit (world_with h).

Definition capture_run (authorization : string) (h : list pyobj) (commit : bool)
  : result gateway_result * world :=
  capture sk host transport decimal_of_int_literal
          amount authorization options commit (world_with h).

(** [store(card, options, commit)] with a token, on a Store that holds
    the customer [cus_1]. *)
Definition store_run (h : list pyobj) (commit : bool)
  : result gateway_result * world :=
  store sk host transport hasattr card options_with_token commit
        (world_with_customer h).
End Runs.

(** * Properties *)

(** ** Decimal arithmetic *)

Lemma pow10_pos (k : Z) : 0 < 10 ^ k \/ (k < 0 /\ 10 ^ k = 0).
Proof.
  destruct (Z.lt_ge_cases k 0) as [Hk | Hk].
  - right. split; [exact Hk | now apply Z.pow_neg_r].
  - left. apply Z.pow_pos_nonneg; lia.
Qed.


Lemma ndigits_fuel_spec (f : nat) : forall n,
  0 <= n < 2 ^ (Z.of_nat f + 1) ->
  1 <= ndigits_fuel f n /\ n < 10 ^ ndigits_fuel f n /\
  (0 < n -> 10 ^ (ndigits_fuel f n - 1) <= n).
Proof.
  induction f as [| f IH]; intros n Hn.
  - cbn [ndigits_fuel]. change (2 ^ (Z.of_nat 0 + 1)) with 2 in Hn.
    change (10 ^ 1) with 10. change (10 ^ (1 - 1)) with 1. lia.
  - cbn [ndigits_fuel]. destruct (Z.ltb_spec n 10) as [Hlt | Hge].
    + change (10 ^ 1) with 10. change (10 ^ (1 - 1)) with 1. lia.
    + assert (Hq : 0 <= n / 10 < 2 ^ (Z.of_nat f + 1)).
      { split; [apply Z.div_pos; lia |].
        apply Z.div_lt_upper_bound; [lia |].
        replace (Z.of_nat (S f) + 1) with (Z.succ (Z.of_nat f + 1)) in Hn by lia.
        rewrite Z.pow_succ_r in Hn by lia.
        assert (0 < 2 ^ (Z.of_nat f + 1)) by (apply Z.pow_pos_nonneg; lia). lia. }
      destruct (IH _ Hq) as (H1 & H2 & H3).
      set (r := ndigits_fuel f (n / 10)) in *.
      assert (Hpos : 0 < n / 10) by (apply Z.div_str_pos; lia).
      specialize (H3 Hpos).
      replace (1 + r - 1) with (Z.succ (r - 1)) by lia.
      replace (1 + r) with (Z.succ r) by lia.
      rewrite !Z.pow_succ_r by lia.
      pose proof (Z.div_mod n 10 ltac:(lia)) as Hdm.
      pose proof (Z.mod_pos_bound n 10 ltac:(lia)) as Hm.
      lia.
Qed.

Lemma ndigits_spec (n : Z) :
  0 <= n ->
  1 <= ndigits n /\ n < 10 ^ ndigits n /\ (0 < n -> 10 ^ (ndigits n - 1) <= n).
Proof.
  intros Hn. unfold ndigits. apply ndigits_fuel_spec.
  split; [exact Hn |].
  destruct (Z.eq_dec n 0) as [-> | Hne]; [reflexivity |].
  rewrite Z2Nat.id by apply Z.log2_nonneg.
  replace (Z.log2 n + 1) with (Z.succ (Z.log2 n)) by lia.
  apply Z.log2_spec. lia.
Qed.

Lemma ndigits_le (prec n : Z) :
  1 <= prec -> 0 <= n < 10 ^ prec -> ndigits n <= prec.
Proof.
  intros Hp [Hn Hlt].
  destruct (ndigits_spec n Hn) as (H1 & _ & H3).
  destruct (Z.eq_dec n 0) as [-> | Hne]; [vm_compute ndigits; lia |].
  destruct (Z.le_gt_cases (ndigits n) prec) as [Hle | Hgt]; [exact Hle | exfalso].
  assert (10 ^ prec <= 10 ^ (ndigits n - 1)) by (apply Z.pow_le_mono_r; lia).
  specialize (H3 ltac:(lia)). lia.
Qed.

(** A coefficient that fits the precision is left alone. *)
Lemma dec_fix_small (prec : Z) (d : decimal) :
  1 <= prec -> Z.abs (coef d) < 10 ^ prec -> dec_fix prec d = d.
Proof.
  intros Hp Hc. unfold dec_fix.
  pose proof (ndigits_le prec (Z.abs (coef d)) Hp ltac:(lia)) as Hle.
  destruct (Z.leb_spec (ndigits (Z.abs (coef d))) prec); [reflexivity | lia].
Qed.







Lemma dec_eqb_spec (a b : decimal) : dec_eqb a b = true <-> dec_eq a b.
Proof. unfold dec_eqb, dec_eq. apply Z.eqb_eq. Qed.






Lemma Z_of_str_of_Z (z : Z) : Z_of_str (str_of_Z z) = Some z.
Proof.
  unfold Z_of_str, str_of_Z.
  rewrite NilZero.isi.
  - cbn [option_map]. f_equal. apply DecimalZ.of_to.
  - destruct z as [| p | p]; cbn; try discriminate.
    intros [= E]. exact (DecimalPos.Unsigned.to_uint_nonnil p E).
  - destruct z as [| p | p]; cbn; try discriminate.
    intros [= E]. exact (DecimalPos.Unsigned.to_uint_nonnil p E).
Qed.











(** ** The monad and the heap primitives *)

Lemma bind_ok {A B} (m : M A) (k : A -> M B) (w w' : world) (a : A) :
  m w = (Ok a, w') -> bind m k w = k a w'.
Proof. intros H. unfold bind. now rewrite H. Qed.

Lemma bind_raise {A B} (m : M A) (k : A -> M B) (w w' : world) (e : exn) :
  m w = (Raise e, w') -> bind m k w = (Raise e, w').
Proof. intros H. unfold bind. now rewrite H. Qed.

Lemma py_contains_dict (w : world) (l : loc) (d : gmap string val) (key : string) :
  heap w !! l = Some (ODict d) ->
  py_contains key (VRef l) w = (Ok (has_key d key), w).
Proof. intros H. unfold py_contains. now rewrite H. Qed.

Lemma py_getitem_dict (w : world) (l : loc) (d : gmap string val)
      (key : string) (x : val) :
  heap w !! l = Some (ODict d) -> d !! key = Some x ->
  py_getitem (VRef l) key w = (Ok x, w).
Proof. intros H Hk. unfold py_getitem. now rewrite H, Hk. Qed.

Lemma py_getitem_missing (w : world) (l : loc) (d : gmap string val) (key : string) :
  heap w !! l = Some (ODict d) -> d !! key = None ->
  py_getitem (VRef l) key w = (Raise (KeyError (VStr key)), w).
Proof. intros H Hk. unfold py_getitem. now rewrite H, Hk. Qed.

Lemma has_key_true {A} (d : gmap string A) (key : string) (x : A) :
  d !! key = Some x -> has_key d key = true.
Proof. intros H. unfold has_key. now rewrite H. Qed.



(** ** What an operation leaves untouched *)

Lemma bind_inv {A B} (m : M A) (k : A -> M B) (w w' : world) (r : result B) :
  bind m k w = (r, w') ->
  (exists a w1, m w = (Ok a, w1) /\ k a w1 = (r, w')) \/
  (exists e, m w = (Raise e, w') /\ r = Raise e).
Proof.
  unfold bind. destruct (m w) as [[a | e] w1]; intros H.
  - left. now exists a, w1.
  - right. exists e. now inversion H.
Qed.

Section Frame.
Context {X : Type} (f : world -> X).

Lemma keeps_ret {A} (a : A) : keeps f (ret a).
Proof. intros w r w' [= _ <-]. reflexivity. Qed.

Lemma keeps_raise {A} (e : exn) : keeps f (@raise A e).
Proof. intros w r w' [= _ <-]. reflexivity. Qed.

Lemma keeps_lift {A} (x : result A) : keeps f (lift x).
Proof. intros w r w' [= _ <-]. reflexivity. Qed.

Lemma keeps_gets {A} (g : world -> A) : keeps f (gets g).
Proof. intros w r w' [= _ <-]. reflexivity. Qed.

Lemma keeps_bind {A B} (m : M A) (k : A -> M B) :
  keeps f m -> (forall a, keeps f (k a)) -> keeps f (bind m k).
Proof.
  intros Hm Hk w r w' H.
  destruct (bind_inv _ _ _ _ _ H) as [(a & w1 & H1 & H2) | (e & H1 & _)].
  - rewrite (Hk a _ _ _ H2). exact (Hm _ _ _ H1).
  - exact (Hm _ _ _ H1).
Qed.

Lemma keeps_if {A} (b : bool) (m1 m2 : M A) :
  keeps f m1 -> keeps f m2 -> keeps f (if b then m1 else m2).
Proof. now destruct b. Qed.

(** A computation that only reads the world. *)
Lemma keeps_reader {A} (m : M A) :
  (forall w, (m w).2 = w) -> keeps f m.
Proof. intros H w r w' E. specialize (H w). rewrite E in H. cbn in H. now subst. Qed.

Lemma keeps_modify (g : world -> world) :
  (forall w, f (g w) = f w) -> keeps f (modify g).
Proof. intros H w r w' [= _ <-]. apply H. Qed.
End Frame.

Lemma py_contains_reads key v w : (py_contains key v w).2 = w.
Proof.
  unfold py_contains. destruct v as [| b | z | s | d0 | l | pk]; try reflexivity.
  now destruct (heap w !! l) as [[] |].
Qed.

Lemma py_getitem_reads v key w : (py_getitem v key w).2 = w.
Proof.
  unfold py_getitem. destruct v as [| b | z | s | d0 | l | pk]; try reflexivity.
  destruct (heap w !! l) as [[d | xs] |]; try reflexivity.
  now destruct (d !! key).
Qed.

Lemma py_items_reads v w : (py_items v w).2 = w.
Proof.
  unfold py_items. destruct v as [| b | z | s | d0 | l | pk]; try reflexivity.
  now destruct (heap w !! l) as [[] |].
Qed.

Lemma py_truthy_reads v w : (py_truthy v w).2 = w.
Proof.
  unfold py_truthy. destruct v as [| b | z | s | d0 | l | pk]; try reflexivity.
  now destruct (heap w !! l) as [[] |].
Qed.

Lemma to_decimal_reads dos v w : (to_decimal dos v w).2 = w.
Proof.
  unfold to_decimal. destruct v as [| b | z | s | d0 | l | pk]; try reflexivity.
  - now destruct (dos s).
  - now destruct (heap w !! l) as [[] |].
Qed.

Create HintDb frame.

#[export] Hint Resolve keeps_ret keeps_raise keeps_lift keeps_gets keeps_if : frame.
#[export] Hint Extern 1 (keeps _ (py_contains _ _)) =>
  apply keeps_reader, py_contains_reads : frame.
#[export] Hint Extern 1 (keeps _ (py_getitem _ _)) =>
  apply keeps_reader, py_getitem_reads : frame.
#[export] Hint Extern 1 (keeps _ (py_items _)) =>
  apply keeps_reader, py_items_reads : frame.
#[export] Hint Extern 1 (keeps _ (py_truthy _)) =>
  apply keeps_reader, py_truthy_reads : frame.
#[export] Hint Extern 1 (keeps _ (to_decimal _ _)) =>
  apply keeps_reader, to_decimal_reads : frame.
#[export] Hint Extern 1 (keeps _ (modify _)) =>
  apply keeps_modify; intros; reflexivity : frame.
#[export] Hint Extern 2 (keeps _ (bind _ _)) =>
  apply keeps_bind; [| intros] : frame.
#[export] Hint Extern 1 (keeps _ (let '(_, _) := ?p in _)) => destruct p : frame.
#[export] Hint Extern 1 (keeps _ (let _ := _ in _)) => progress cbv zeta : frame.

Ltac frame := eauto 30 with frame.

Lemma keeps_db_py_copy v : keeps db (py_copy v).
Proof.
  intros w r w'. unfold py_copy. destruct v as [| b | z | s | d0 | l | pk]; try (intros [= _ <-]; reflexivity).
  destruct (heap w !! l); intros [= _ <-]; reflexivity.
Qed.

Lemma keeps_db_py_delitem v key : keeps db (py_delitem v key).
Proof.
  intros w r w'. unfold py_delitem. destruct v as [| b | z | s | d0 | l | pk]; try (intros [= _ <-]; reflexivity).
  destruct (heap w !! l) as [[d | xs] |]; try (intros [= _ <-]; reflexivity).
  destruct (d !! key); intros [= _ <-]; reflexivity.
Qed.

Lemma keeps_heap_save i : keeps heap (save i).
Proof.
  intros w r w'. unfold save.
  destruct (inst_pk i); intros [= _ <-]; now destruct (inst_model i).
Qed.

#[export] Hint Resolve keeps_db_py_copy keeps_db_py_delitem keeps_heap_save : frame.

Lemma keeps_pin_request {X} (f : world -> X) sk ep tr method url data :
  (forall r w, f (log_request r w) = f w) ->
  keeps f (_pin_request sk ep tr method url data).
Proof. intros H. unfold _pin_request. apply keeps_bind; [apply keeps_modify|]; intros; frame. Qed.

Lemma keeps_pin_response {X} (f : world -> X) resp t o :
  (forall n w, f (log_signal n w) = f w) ->
  keeps f (_pin_response resp t o).
Proof.
  intros H. unfold _pin_response.
  apply keeps_bind; [frame |]. intros b.
  apply keeps_bind; [destruct b; frame |]. intros [resp' success].
  apply keeps_bind; [frame |]. intros [st sg].
  apply keeps_bind; [apply keeps_modify; intros; apply H | intros; frame].
Qed.

Lemma keeps_db_pin_request sk ep tr method url data :
  keeps db (_pin_request sk ep tr method url data).
Proof. now apply keeps_pin_request. Qed.

Lemma keeps_db_pin_response resp t o : keeps db (_pin_response resp t o).
Proof. now apply keeps_pin_response. Qed.

Lemma keeps_heap_pin_response resp t o : keeps heap (_pin_response resp t o).
Proof. now apply keeps_pin_response. Qed.

Lemma keeps_db_find_customer t : keeps db (find_customer t).
Proof. unfold find_customer. frame. Qed.

#[export] Hint Resolve keeps_db_pin_request keeps_db_pin_response
  keeps_heap_pin_response keeps_db_find_customer : frame.

Lemma keeps_heap_save_card hasattr cd cc : keeps heap (save_card hasattr cd cc).
Proof. unfold save_card. frame. Qed.

Lemma keeps_heap_save_charge dos c resp : keeps heap (save_charge dos c resp).
Proof. unfold save_charge, fromMinorUnits. frame. Qed.

#[export] Hint Resolve keeps_heap_save_card keeps_heap_save_charge : frame.

(** Components that the heap operations and [save] do not reach. *)
Lemma keeps_py_copy {X} (f : world -> X) v :
  (forall h w, f (set_heap h w) = f w) -> keeps f (py_copy v).
Proof.
  intros Hf w r w'. unfold py_copy.
  destruct v as [| b | z | s | d0 | l | pk]; try (intros [= _ <-]; reflexivity).
  destruct (heap w !! l); intros [= _ <-]; [apply Hf | reflexivity].
Qed.

Lemma keeps_py_delitem {X} (f : world -> X) v key :
  (forall h w, f (set_heap h w) = f w) -> keeps f (py_delitem v key).
Proof.
  intros Hf w r w'. unfold py_delitem.
  destruct v as [| b | z | s | d0 | l | pk]; try (intros [= _ <-]; reflexivity).
  destruct (heap w !! l) as [[d | xs] |]; try (intros [= _ <-]; reflexivity).
  destruct (d !! key); intros [= _ <-]; [apply Hf | reflexivity].
Qed.

Lemma keeps_save {X} (f : world -> X) i :
  (forall m t pk w, f (log_save m pk (set_table m t w)) = f w) -> keeps f (save i).
Proof.
  intros Hf w r w'. unfold save.
  destruct (inst_pk i); intros [= _ <-]; apply Hf.
Qed.

#[export] Hint Extern 3 (keeps _ (py_copy _)) =>
  apply keeps_py_copy; intros; reflexivity : frame.
#[export] Hint Extern 3 (keeps _ (py_delitem _ _)) =>
  apply keeps_py_delitem; intros; reflexivity : frame.
#[export] Hint Extern 3 (keeps _ (save _)) =>
  apply keeps_save; intros [] *; reflexivity : frame.
#[export] Hint Extern 3 (keeps _ (_pin_request _ _ _ _ _ _)) =>
  apply keeps_pin_request; intros; reflexivity : frame.
#[export] Hint Extern 3 (keeps _ (_pin_response _ _ _)) =>
  apply keeps_pin_response; intros; reflexivity : frame.
#[export] Hint Extern 4 (keeps _ (save_card _ _ _)) => unfold save_card : frame.
#[export] Hint Extern 4 (keeps _ (save_charge _ _ _)) =>
  unfold save_charge, fromMinorUnits : frame.
#[export] Hint Extern 4 (keeps _ (copy_response _)) => unfold copy_response : frame.
#[export] Hint Extern 4 (keeps _ (commit_and_response _ _)) =>
  unfold commit_and_response : frame.
#[export] Hint Extern 4 (keeps _ (tail_of_operation _ _ _ _ _)) =>
  unfold tail_of_operation : frame.

Lemma pin_response_obj resp t o w res w' :
  _pin_response resp t o w = (Ok res, w') -> obj res = o.
Proof.
  unfold _pin_response. intros H.
  apply bind_inv in H as [(b & w1 & _ & H) | (e & _ & [=])].
  apply bind_inv in H as [([resp' success] & w2 & _ & H) | (e & _ & [=])].
  apply bind_inv in H as [([st sg] & w3 & _ & H) | (e & _ & [=])].
  apply bind_inv in H as [(u & w4 & _ & H) | (e & _ & [=])].
  now inversion H.
Qed.

(** ** Persistence is guarded by [commit] and the envelope *)

Lemma keeps_run {A X} (f : world -> X) (m : M A) w r w' :
  m w = (r, w') -> keeps f m -> f w' = f w.
Proof. intros H K. exact (K _ _ _ H). Qed.

Ltac by_keeps_on f H :=
  let K := fresh "K" in
  pose proof (keeps_run f _ _ _ _ H) as K; apply K; clear K.

Ltac by_keeps H := by_keeps_on db H.

Section Guard.
Variables (sk ep : string) (tr : request -> result val)
          (hasattr : string -> bool) (dos : string -> option decimal).

Lemma purchase_dry_run money cc o :
  purchase sk ep tr hasattr dos money cc o false =
    (do data <- lift (_pin_base money o);
     do card_data <- lift (_pin_card cc o);
     do resp <- _pin_request sk ep tr POST "/charges"
                  (<["card" := PDict card_data]> data);
     _pin_response resp "purchase" None).
Proof. reflexivity. Qed.

Lemma capture_dry_run money auth o :
  capture sk ep tr dos money auth o false =
    (do data <- lift (capture_data money auth o);
     do resp <- _pin_request sk ep tr POST "/charges" data;
     _pin_response resp "capture" None).
Proof. reflexivity. Qed.

Lemma commit_and_response_inv commit resp w b w' :
  commit_and_response commit resp w = (Ok b, w') ->
  w' = w /\ (b = true -> commit = true /\ has_envelope w resp).
Proof.
  unfold commit_and_response, has_envelope. destruct commit.
  - intros H. pose proof (py_contains_reads "response" resp w) as Hw.
    rewrite H in Hw. cbn in Hw. subst w'. split; [reflexivity |].
    intros ->. now rewrite H.
  - intros [= <- <-]. split; [reflexivity | discriminate].
Qed.

Lemma keeps_db_commit_and_response commit resp :
  keeps db (commit_and_response commit resp).
Proof. unfold commit_and_response. frame. Qed.

Lemma has_envelope_heap w w' resp :
  heap w' = heap w -> has_envelope w' resp -> has_envelope w resp.
Proof.
  unfold has_envelope, py_contains. intros Hh.
  destruct resp; try discriminate; rewrite ?Hh; try exact id.
  now destruct (heap w !! l) as [[] |].
Qed.

Lemma pin_request_inv method url data w r w' :
  _pin_request sk ep tr method url data w = (r, w') ->
  exists req, w' = log_request req w /\ tr req = r /\
              req_method req = method /\
              req_uri req = "https://" +:+ ep +:+ "/" +:+ version +:+ url /\
              req_data req = data.
Proof.
  unfold _pin_request, bind, modify, lift. intros [= <- <-].
  eexists. repeat split.
Qed.

(** The shape shared by the three persisting operations, after the
    request: if the Store changed, [commit] was set and the reply had an
    envelope. *)
Lemma guarded {A} (commit : bool) (resp : val) (branch : M A) (dflt : A)
      (k : A -> M gateway_result) (w w' : world) (r : result gateway_result) :
  (forall a, keeps db (k a)) ->
  (do persist <- commit_and_response commit resp;
   do x <- (if persist : bool then branch else ret dflt);
   k x) w = (r, w') ->
  db w' <> db w ->
  commit = true /\ has_envelope w resp.
Proof.
  intros Hk H Hdb.
  apply bind_inv in H as [(b & w1 & H1 & H) | (e & H1 & _)].
  - apply commit_and_response_inv in H1 as [-> Hb].
    destruct b; [now apply Hb |].
    exfalso. apply Hdb. revert H. apply keeps_bind; frame.
  - exfalso. apply Hdb. exact (keeps_db_commit_and_response _ _ _ _ _ H1).
Qed.

Lemma lift_inv {A} (x : result A) w r w' :
  lift x w = (r, w') -> r = x /\ w' = w.
Proof. now intros [= <- <-]. Qed.

Lemma store_dry_run cc o :
  store sk ep tr hasattr cc o false =
    (do email <- lift (options_getitem o "email");
     do card_data <- lift (_pin_card cc o);
     let data : gmap string pval :=
       list_to_map [("email", PStr email); ("card", PDict card_data)] in
     do has_token <- lift (options_contains "token" o);
     do resp <-
       (if has_token : bool then
          do token <- lift (options_getitem o "token");
          _pin_request sk ep tr PUT ("/customers/" +:+ token) data
        else _pin_request sk ep tr POST "/customers" data);
     do has_token <- lift (options_contains "token" o);
     do customer <-
       (if has_token : bool then
          do token <- lift (options_getitem o "token");
          find_customer token
        else ret None);
     _pin_response resp "store" customer).
Proof. reflexivity. Qed.

Lemma keeps_db_purchase_dry money cc o :
  keeps db (purchase sk ep tr hasattr dos money cc o false).
Proof. rewrite purchase_dry_run. frame. Qed.

Lemma keeps_db_capture_dry money auth o :
  keeps db (capture sk ep tr dos money auth o false).
Proof. rewrite capture_dry_run. frame. Qed.

Lemma keeps_db_store_dry cc o :
  keeps db (store sk ep tr hasattr cc o false).
Proof. rewrite store_dry_run. frame. Qed.

Lemma keeps_customers_store_request (o : option options_t) (has_token : bool)
      (data : gmap string pval) :
  keeps customers
    (if has_token then
       do token <- lift (options_getitem o "token");
       _pin_request sk ep tr PUT ("/customers/" +:+ token) data
     else _pin_request sk ep tr POST "/customers" data).
Proof.
  destruct has_token.
  - apply keeps_bind; [frame | intros; now apply keeps_pin_request].
  - now apply keeps_pin_request.
Qed.

Lemma store_lookup_inv (o : option options_t) (b : bool) w w0 c w' :
  options_contains "token" o = Ok b ->
  customers w = customers w0 ->
  (if b then do token <- lift (options_getitem o "token"); find_customer token
   else ret None) w = (Ok c, w') ->
  c = token_customer o w0 /\ w' = w.
Proof.
  destruct o as [opts |]; [| discriminate]. cbn [options_contains token_customer].
  intros [= <-] Hc. unfold has_key, options_getitem, dict_getitem.
  destruct (scalars opts !! "token") as [t |].
  - intros [= <- <-]. split; [| reflexivity].
    unfold lookup_customer. now rewrite Hc.
  - now intros [= <- <-].
Qed.

Lemma store_dry_obj cc o w res w' :
  store sk ep tr hasattr cc o false w = (Ok res, w') ->
  obj res = token_customer o w.
Proof.
  rewrite store_dry_run. intros H.
  apply bind_inv in H as [(email & w1 & H1 & H) | (e & _ & [=])].
  apply lift_inv in H1 as [_ ->].
  apply bind_inv in H as [(cd & w1 & H1 & H) | (e & _ & [=])].
  apply lift_inv in H1 as [_ ->].
  apply bind_inv in H as [(b & w1 & H1 & H) | (e & _ & [=])].
  apply lift_inv in H1 as [Hb ->].
  apply bind_inv in H as [(resp & w1 & H1 & H) | (e & _ & [=])].
  apply keeps_customers_store_request in H1.
  apply bind_inv in H as [(b' & w2 & H2 & H) | (e & _ & [=])].
  apply lift_inv in H2 as [Hb' ->].
  apply bind_inv in H as [(c & w2 & H2 & H) | (e & _ & [=])].
  apply (store_lookup_inv o b' w1 w) in H2 as [-> ->]; [| congruence | exact H1].
  exact (pin_response_obj _ _ _ _ _ _ H).
Qed.
End Guard.

(** C9, as amended: with [commit=false] every operation still builds the
    request, sends it and classifies the reply (it is the same computation
    as request followed by [_pin_response]), whatever the outcome the
    Store is left as it was (no table changes and nothing is saved), and
    the persisted-entity slot of the result is null for [purchase] and
    [capture]; for [store], which is the request followed by the lookup
    and [_pin_response], it holds the Customer that the lookup by
    [options['token']] found, unmodified, and is null when there is no
    token or no such Customer. *)
Theorem commit_false_writes_nothing
        (sk ep : string) (tr : request -> result val)
        (hasattr : string -> bool) (dos : string -> option decimal) :
  (forall money cc o,
     purchase sk ep tr hasattr dos money cc o false =
       (do data <- lift (_pin_base money o);
        do card_data <- lift (_pin_card cc o);
        do resp <- _pin_request sk ep tr POST "/charges"
                     (<["card" := PDict card_data]> data);
        _pin_response resp "purchase" None) /\
     keeps db (purchase sk ep tr hasattr dos money cc o false) /\
     forall w res w',
       purchase sk ep tr hasattr dos money cc o false w = (Ok res, w') ->
       obj res = None) /\
  (forall money auth o,
     capture sk ep tr dos money auth o false =
       (do data <- lift (capture_data money auth o);
        do resp <- _pin_request sk ep tr POST "/charges" data;
        _pin_response resp "capture" None) /\
     keeps db (capture sk ep tr dos money auth o false) /\
     forall w res w',
       capture sk ep tr dos money auth o false w = (Ok res, w') ->
       obj res = None) /\
  (forall cc o,
     store sk ep tr hasattr cc o false =
       (do email <- lift (options_getitem o "email");
        do card_data <- lift (_pin_card cc o);
        let data : gmap string pval :=
          list_to_map [("email", PStr email); ("card", PDict card_data)] in
        do has_token <- lift (options_contains "token" o);
        do resp <-
          (if has_token : bool then
             do token <- lift (options_getitem o "token");
             _pin_request sk ep tr PUT ("/customers/" +:+ token) data
           else _pin_request sk ep tr POST "/customers" data);
        do has_token <- lift (options_contains "token" o);
        do customer <-
          (if has_token : bool then
             do token <- lift (options_getitem o "token");
             find_customer token
           else ret None);
        _pin_response resp "store" customer) /\
     keeps db (store sk ep tr hasattr cc o false) /\
     forall w res w',
       store sk ep tr hasattr cc o false w = (Ok res, w') ->
       obj res = token_customer o w).
Proof.
  split; [| split].
  - intros money cc o. split; [reflexivity |].
    split; [apply keeps_db_purchase_dry |].
    intros w res w'. rewrite purchase_dry_run. intros H.
    apply bind_inv in H as [(data & w1 & _ & H) | (e & _ & [=])].
    apply bind_inv in H as [(cd & w2 & _ & H) | (e & _ & [=])].
    apply bind_inv in H as [(resp & w3 & _ & H) | (e & _ & [=])].
    exact (pin_response_obj _ _ _ _ _ _ H).
  - intros money auth o. split; [reflexivity |].
    split; [apply keeps_db_capture_dry |].
    intros w res w'. rewrite capture_dry_run. intros H.
    apply bind_inv in H as [(data & w1 & _ & H) | (e & _ & [=])].
    apply bind_inv in H as [(resp & w3 & _ & H) | (e & _ & [=])].
    exact (pin_response_obj _ _ _ _ _ _ H).
  - intros cc o. split; [reflexivity |].
    split; [apply keeps_db_store_dry | apply store_dry_obj].
Qed.

(** C1, as amended: for [purchase], [capture] and [store], the Store is
    written (a StoredCard, Charge or Customer created or updated) only when
    the caller passed [commit=true] and the reply carries a top-level
    ["response"] envelope; the success flag of the envelope is not
    consulted. *)
Theorem persists_only_on_commit_and_envelope
        (sk ep : string) (tr : request -> result val)
        (hasattr : string -> bool) (dos : string -> option decimal) :
  (forall money cc o commit w r w',
     purchase sk ep tr hasattr dos money cc o commit w = (r, w') ->
     db w' <> db w ->
     commit = true /\ exists req resp, tr req = Ok resp /\ has_envelope w resp) /\
  (forall money auth o commit w r w',
     capture sk ep tr dos money auth o commit w = (r, w') ->
     db w' <> db w ->
     commit = true /\ exists req resp, tr req = Ok resp /\ has_envelope w resp) /\
  (forall cc o commit w r w',
     store sk ep tr hasattr cc o commit w = (r, w') ->
     db w' <> db w ->
     commit = true /\ exists req resp, tr req = Ok resp /\ has_envelope w resp).
Proof.
  split; [| split].
  - intros money cc o commit w r w' H Hdb. unfold purchase in H.
    apply bind_inv in H as [(data & w1 & H1 & H) | (e & [= _ <-] & _)]; [| easy].
    apply lift_inv in H1 as [_ ->].
    apply bind_inv in H as [(cd & w1 & H1 & H) | (e & [= _ <-] & _)]; [| easy].
    apply lift_inv in H1 as [_ ->].
    apply bind_inv in H as [(resp & w1 & H1 & H) | (e & H1 & _)].
    + apply pin_request_inv in H1 as (req & -> & Htr & _).
      apply guarded in H as [Hc He]; [| intros; frame | exact Hdb].
      split; [exact Hc |]. exists req, resp. split; [exact Htr |].
      now apply (has_envelope_heap w (log_request req w)).
    + exfalso. apply Hdb. exact (keeps_db_pin_request _ _ _ _ _ _ _ _ _ H1).
  - intros money auth o commit w r w' H Hdb. unfold capture in H.
    apply bind_inv in H as [(data & w1 & H1 & H) | (e & [= _ <-] & _)]; [| easy].
    apply lift_inv in H1 as [_ ->].
    apply bind_inv in H as [(resp & w1 & H1 & H) | (e & H1 & _)].
    + apply pin_request_inv in H1 as (req & -> & Htr & _).
      apply guarded in H as [Hc He]; [| intros; frame | exact Hdb].
      split; [exact Hc |]. exists req, resp. split; [exact Htr |].
      now apply (has_envelope_heap w (log_request req w)).
    + exfalso. apply Hdb. exact (keeps_db_pin_request _ _ _ _ _ _ _ _ _ H1).
  - intros cc o commit w r w' H Hdb. unfold store in H.
    apply bind_inv in H as [(email & w1 & H1 & H) | (e & [= _ <-] & _)]; [| easy].
    apply lift_inv in H1 as [_ ->].
    apply bind_inv in H as [(cd & w1 & H1 & H) | (e & [= _ <-] & _)]; [| easy].
    apply lift_inv in H1 as [_ ->].
    cbv zeta in H.
    apply bind_inv in H as [(b & w1 & H1 & H) | (e & [= _ <-] & _)]; [| easy].
    apply lift_inv in H1 as [Hb ->].
    assert (Hreq : forall resp w1,
      (if b then
         do token <- lift (options_getitem o "token");
         _pin_request sk ep tr PUT ("/customers/" +:+ token)
           (list_to_map [("email", PStr email); ("card", PDict cd)])
       else _pin_request sk ep tr POST "/customers"
              (list_to_map [("email", PStr email); ("card", PDict cd)])) w
        = (Ok resp, w1) ->
      exists req, w1 = log_request req w /\ tr req = Ok resp).
    { intros resp w1 Hr. destruct b.
      - apply bind_inv in Hr as [(t & w2 & H2 & Hr) | (e & _ & [=])].
        apply lift_inv in H2 as [_ ->].
        apply pin_request_inv in Hr as (req & -> & Htr & _). now exists req.
      - apply pin_request_inv in Hr as (req & -> & Htr & _). now exists req. }
    apply bind_inv in H as [(resp & w1 & H1 & H) | (e & H1 & _)].
    + apply Hreq in H1 as (req & -> & Htr).
      apply bind_inv in H as [(b' & w1 & H1 & H) | (e & [= _ <-] & _)]; [| easy].
      apply lift_inv in H1 as [Hb' ->].
      apply bind_inv in H as [(c & w1 & H1 & H) | (e & H1 & _)].
      * assert (Hw1 : w1 = log_request req w).
        { destruct b'; [| now inversion H1].
          apply bind_inv in H1 as [(t & w2 & H2 & H1) | (e & _ & [=])].
          apply lift_inv in H2 as [_ ->]. now inversion H1. }
        subst w1.
        apply guarded in H as [Hc He]; [| intros; frame | exact Hdb].
        split; [exact Hc |]. exists req, resp. split; [exact Htr |].
        now apply (has_envelope_heap w (log_request req w)).
      * exfalso. apply Hdb.
        by_keeps H1. apply keeps_if; frame.
    + exfalso. apply Hdb.
      by_keeps H1. apply keeps_if; frame.
Qed.

(** ** The shallow copy of the envelope *)

Section Envelope.
Variables (w : world) (lr le : loc) (d env : gmap string val).
Hypothesis Hreply : reply_at w lr le d env.

Lemma copy_response_no_card :
  env !! "card" = None ->
  copy_response (VRef lr) w =
    (Raise (KeyError (VStr "card")), set_heap (heap w ++ [ODict env]) w).
Proof.
  destruct Hreply as (Hlr & Hresp & Hle).
  intros Hc. unfold copy_response.
  rewrite (bind_ok _ _ _ _ _ (py_getitem_dict w lr d "response" _ Hlr Hresp)).
  unfold bind at 1. unfold py_copy at 1. rewrite Hle.
  unfold bind, py_getitem. cbn [heap set_heap].
  rewrite list_lookup_middle by reflexivity. now rewrite Hc.
Qed.

Variables (lc : loc) (card : gmap string val).
Hypothesis Hcard : card_at w lr le lc env card.

Lemma copy_response_run (name : val) :
  card !! "name" = Some name ->
  copy_response (VRef lr) w =
    (Ok (VRef (length (heap w))), set_heap (heap_after w env card lc) w).
Proof.
  destruct Hreply as (Hlr & Hresp & Hle). destruct Hcard as (Hc & Hlc & _).
  intros Hn. unfold copy_response.
  rewrite (bind_ok _ _ _ _ _ (py_getitem_dict w lr d "response" _ Hlr Hresp)).
  unfold bind at 1. unfold py_copy at 1. rewrite Hle.
  unfold bind, py_getitem, py_delitem, ret. cbn [heap set_heap].
  rewrite list_lookup_middle by reflexivity. rewrite Hc.
  cbn [heap set_heap].
  rewrite lookup_app_l by (eapply lookup_lt_Some; exact Hlc).
  now rewrite Hlc, Hn.
Qed.

Lemma heap_after_card :
  heap_after w env card lc !! lc = Some (ODict (delete "name" card)).
Proof.
  destruct Hcard as (_ & Hlc & _).
  unfold heap_after. apply list_lookup_insert_eq.
  rewrite length_app. pose proof (lookup_lt_Some _ _ _ Hlc). lia.
Qed.

Lemma heap_after_other (l : loc) (o : pyobj) :
  l <> lc -> heap w !! l = Some o -> heap_after w env card lc !! l = Some o.
Proof.
  intros Hne Hl. unfold heap_after.
  rewrite list_lookup_insert_ne by congruence.
  rewrite lookup_app_l by (eapply lookup_lt_Some; exact Hl). exact Hl.
Qed.

Lemma heap_after_copy :
  heap_after w env card lc !! length (heap w) = Some (ODict env).
Proof.
  destruct Hcard as (_ & Hlc & _). unfold heap_after.
  rewrite list_lookup_insert_ne.
  - now apply list_lookup_middle.
  - pose proof (lookup_lt_Some _ _ _ Hlc). lia.
Qed.
End Envelope.

Lemma pin_response_envelope (w : world) (lr : loc) (d : gmap string val) (v : val)
      (t : string) (o : option instance) (res : gateway_result) (w' : world) :
  heap w !! lr = Some (ODict d) ->
  d !! "response" = Some v ->
  _pin_response (VRef lr) t o w = (Ok res, w') ->
  response res = v /\
  exists sg, signals w' = (signals w ++ [Notification sg t v])%list.
Proof.
  intros Hlr Hv. unfold _pin_response.
  rewrite (bind_ok _ _ _ _ _ (py_contains_dict w lr d "response" Hlr)).
  rewrite (has_key_true d "response" _ Hv).
  unfold bind at 1.
  rewrite (bind_ok _ _ _ _ _ (py_getitem_dict w lr d "response" _ Hlr Hv)).
  intros H.
  assert (Hrs : exists success w1,
             w1 = w /\
             (do ss <- lift (SSIG_getitem success);
              let '(status, signal) := ss in
              do_ modify (log_signal (Notification signal t v));
              ret (GatewayResult status v o)) w1 = (Ok res, w')).
  { destruct (bind (py_contains "success" v) _ w) as [[[v' success] | e] w1] eqn:E;
      [| discriminate H].
    apply bind_inv in E as [(b & w2 & E1 & E) | (e & _ & [=])].
    pose proof (py_contains_reads "success" v w) as Hw. rewrite E1 in Hw.
    cbn in Hw. subst w2.
    destruct b.
    - apply bind_inv in E as [(x & w2 & E2 & E) | (e & _ & [=])].
      pose proof (py_getitem_reads v "success" w) as Hw. rewrite E2 in Hw.
      cbn in Hw. subst w2. inversion E; subst. now exists success, w1.
    - inversion E; subst. now exists (VBool true), w1. }
  destruct Hrs as (success & w1 & -> & Hrs).
  apply bind_inv in Hrs as [([st sg] & w1 & H1 & Hrs) | (e & _ & [=])].
  apply lift_inv in H1 as [_ ->].
  inversion Hrs; subst. cbn. split; [reflexivity | now exists sg].
Qed.

Lemma lift_ok {A} (x : result A) (a : A) (w : world) :
  x = Ok a -> lift x w = (Ok a, w).
Proof. now intros ->. Qed.

Lemma pin_request_ok sk ep tr method url data resp w :
  tr (build_request sk ep method url data) = Ok resp ->
  _pin_request sk ep tr method url data w =
    (Ok resp, log_request (build_request sk ep method url data) w).
Proof. intros H. unfold _pin_request, bind, modify, lift. now rewrite H. Qed.

(** ** The persistence branch and the envelope it shares *)

Section Mutation.
Variables (w : world) (lr le : loc) (d env : gmap string val).
Hypothesis Hreply : reply_at w lr le d env.

Variables (rest : val -> M (option instance)) (dflt : option instance)
          (t : string).

Lemma commit_and_response_envelope :
  commit_and_response true (VRef lr) w = (Ok true, w).
Proof.
  destruct Hreply as (Hlr & Hresp & _). unfold commit_and_response.
  rewrite (py_contains_dict w lr d "response" Hlr).
  now rewrite (has_key_true d "response" _ Hresp).
Qed.

Lemma tail_no_card :
  env !! "card" = None ->
  (tail_of_operation lr rest dflt t true w).1 = Raise (KeyError (VStr "card")).
Proof.
  intros Hc. unfold tail_of_operation.
  rewrite (bind_ok _ _ _ _ _ commit_and_response_envelope).
  unfold bind at 1. unfold bind at 1.
  now rewrite (copy_response_no_card w lr le d env Hreply Hc).
Qed.

Lemma tail_mutates (lc : loc) (card : gmap string val) (name : val) :
  card_at w lr le lc env card ->
  card !! "name" = Some name ->
  (forall v, keeps heap (rest v)) ->
  name_removed le lc env card t (tail_of_operation lr rest dflt t true w).
Proof.
  intros Hcard Hn Hrest.
  pose proof Hreply as (Hlr & Hresp & Hle).
  pose proof Hcard as (Hc & Hlc & Hne1 & Hne2).
  unfold tail_of_operation.
  rewrite (bind_ok _ _ _ _ _ commit_and_response_envelope).
  unfold bind at 1. unfold bind at 1.
  rewrite (copy_response_run w lr le d env Hreply lc card Hcard name Hn).
  destruct (rest _ _) as [[x | e] w3] eqn:Er;
    pose proof (Hrest _ _ _ _ Er) as Hh; cbn [heap set_heap] in Hh.
  - destruct (_pin_response (VRef lr) t x w3) as [r w'] eqn:Ep.
    pose proof (keeps_heap_pin_response _ _ _ _ _ _ Ep) as Hh'.
    unfold name_removed. cbn [fst snd]. rewrite Hh', Hh.
    split; [exact (heap_after_card w lr le env lc card Hcard) |].
    split; [now apply heap_after_other |].
    intros res ->.
    assert (Hlr3 : heap w3 !! lr = Some (ODict d)).
    { rewrite Hh. now apply heap_after_other. }
    destruct (pin_response_envelope _ _ _ _ _ _ _ _ Hlr3 Hresp Ep) as (Hr & sg & Hs).
    split; [exact Hr |]. exists sg. rewrite Hs. apply last_snoc.
  - unfold name_removed. cbn [fst snd]. rewrite Hh.
    split; [exact (heap_after_card w lr le env lc card Hcard) |].
    split; [now apply heap_after_other | discriminate].
Qed.
End Mutation.

Section Operations.
Variables (sk ep : string) (tr : request -> result val)
          (hasattr : string -> bool) (dos : string -> option decimal).

Lemma purchase_tail money cc o commit base cd lr w :
  _pin_base money o = Ok base ->
  _pin_card cc o = Ok cd ->
  tr (build_request sk ep POST "/charges" (<["card" := PDict cd]> base))
    = Ok (VRef lr) ->
  purchase sk ep tr hasattr dos money cc o commit w =
    tail_of_operation lr
      (fun response =>
         do card <- save_card hasattr cd cc;
         do charge <- save_charge dos
                        (Instance PinCharge None
                           {["card" := VCard (default 0%nat (inst_pk card))]})
                        response;
         ret (Some charge))
      None "purchase" commit
      (log_request
         (build_request sk ep POST "/charges" (<["card" := PDict cd]> base)) w).
Proof.
  intros Hb Hc Ht. unfold purchase.
  rewrite (bind_ok _ _ _ _ _ (lift_ok _ _ w Hb)).
  rewrite (bind_ok _ _ _ _ _ (lift_ok _ _ w Hc)).
  rewrite (bind_ok _ _ _ _ _ (pin_request_ok _ _ _ _ _ _ _ w Ht)).
  reflexivity.
Qed.

Lemma capture_tail money auth o commit data lr w :
  capture_data money auth o = Ok data ->
  tr (build_request sk ep POST "/charges" data) = Ok (VRef lr) ->
  capture sk ep tr dos money auth o commit w =
    tail_of_operation lr
      (fun response =>
         do charge <- save_charge dos (Instance PinCharge None ∅) response;
         ret (Some charge))
      None "capture" commit
      (log_request (build_request sk ep POST "/charges" data) w).
Proof.
  intros Hd Ht. unfold capture.
  rewrite (bind_ok _ _ _ _ _ (lift_ok _ _ w Hd)).
  rewrite (bind_ok _ _ _ _ _ (pin_request_ok _ _ _ _ _ _ _ w Ht)).
  reflexivity.
Qed.

Lemma store_tail cc opts commit email cd lr w :
  let o := Some opts in
  let data : gmap string pval :=
    list_to_map [("email", PStr email); ("card", PDict cd)] in
  scalars opts !! "email" = Some email ->
  _pin_card cc o = Ok cd ->
  tr (store_request sk ep o data) = Ok (VRef lr) ->
  store sk ep tr hasattr cc o commit w =
    tail_of_operation lr (store_rest hasattr cd cc (token_customer o w))
      (token_customer o w) "store" commit
      (log_request (store_request sk ep o data) w).
Proof.
  intros o data He Hc Ht. unfold store, o in *.
  assert (Hemail : options_getitem (Some opts) "email" = Ok email).
  { unfold options_getitem, dict_getitem. now rewrite He. }
  rewrite (bind_ok _ _ _ _ _ (lift_ok _ _ w Hemail)).
  rewrite (bind_ok _ _ _ _ _ (lift_ok _ _ w Hc)).
  cbv zeta. fold data.
  unfold store_request, token_customer in *.
  unfold bind at 1. cbn [lift options_contains]. unfold has_key.
  destruct (scalars opts !! "token") as [token |] eqn:Etok.
  - unfold bind at 1.
    assert (Htoken : options_getitem (Some opts) "token" = Ok token).
    { unfold options_getitem, dict_getitem. now rewrite Etok. }
    rewrite (bind_ok _ _ _ _ _ (lift_ok _ _ w Htoken)).
    rewrite (pin_request_ok _ _ _ _ _ _ _ w Ht). cbv beta iota.
    assert (Hfind : forall w1,
              (do token0 <- lift (options_getitem (Some opts) "token");
               find_customer token0) w1 = (Ok (lookup_customer token w1), w1)).
    { intros w1. now rewrite (bind_ok _ _ _ _ _ (lift_ok _ _ w1 Htoken)). }
    unfold bind at 1. cbn [lift].
    rewrite (bind_ok _ _ _ _ _ (Hfind _)).
    reflexivity.
  - unfold bind at 1.
    rewrite (pin_request_ok _ _ _ _ _ _ _ w Ht).
    reflexivity.
Qed.
End Operations.

Lemma reply_at_log_request (r : request) w lr le d env :
  reply_at w lr le d env -> reply_at (log_request r w) lr le d env.
Proof. exact id. Qed.

Lemma card_at_log_request (r : request) w lr le lc env card :
  card_at w lr le lc env card -> card_at (log_request r w) lr le lc env card.
Proof. exact id. Qed.

(** C10: whenever the persistence branch of [purchase], [capture] or
    [store] runs (the caller committed and the reply has an envelope), the
    raw response handed back to the caller, and carried by the notification,
    is the envelope object itself, and it has been mutated: the copy is
    shallow, so [del response['card']['name']] removes the name from the
    card object that the envelope still points to.  If the envelope has no
    ["card"] key the branch raises [KeyError]. *)
Theorem persistence_mutates_raw_response
        (sk ep : string) (tr : request -> result val)
        (hasattr : string -> bool) (dos : string -> option decimal)
        (w : world) (lr le : loc) (d env : gmap string val) :
  reply_at w lr le d env ->
  (forall req, tr req = Ok (VRef lr)) ->
  (forall money cc o base cd,
     _pin_base money o = Ok base ->
     _pin_card cc o = Ok cd ->
     let out := purchase sk ep tr hasattr dos money cc o true w in
     (env !! "card" = None -> out.1 = Raise (KeyError (VStr "card"))) /\
     (forall lc card name,
        card_at w lr le lc env card -> card !! "name" = Some name ->
        name_removed le lc env card "purchase" out)) /\
  (forall money auth o data,
     capture_data money auth o = Ok data ->
     let out := capture sk ep tr dos money auth o true w in
     (env !! "card" = None -> out.1 = Raise (KeyError (VStr "card"))) /\
     (forall lc card name,
        card_at w lr le lc env card -> card !! "name" = Some name ->
        name_removed le lc env card "capture" out)) /\
  (forall cc opts email cd,
     scalars opts !! "email" = Some email ->
     _pin_card cc (Some opts) = Ok cd ->
     let out := store sk ep tr hasattr cc (Some opts) true w in
     (env !! "card" = None -> out.1 = Raise (KeyError (VStr "card"))) /\
     (forall lc card name,
        card_at w lr le lc env card -> card !! "name" = Some name ->
        name_removed le lc env card "store" out)).
Proof.
  intros Hreply Htr. split; [| split].
  - intros money cc o base cd Hb Hc out. subst out.
    rewrite (purchase_tail sk ep tr hasattr dos money cc o true base cd lr w Hb Hc (Htr _)).
    split.
    + intros Hnc.
      now apply (tail_no_card _ lr le d env (reply_at_log_request _ _ _ _ _ _ Hreply)).
    + intros lc card name Hcard Hn.
      apply (tail_mutates _ lr le d env (reply_at_log_request _ _ _ _ _ _ Hreply)
               _ _ _ lc card name (card_at_log_request _ _ _ _ _ _ _ Hcard) Hn).
      intros v. frame.
  - intros money auth o data Hd out. subst out.
    rewrite (capture_tail sk ep tr dos money auth o true data lr w Hd (Htr _)).
    split.
    + intros Hnc.
      now apply (tail_no_card _ lr le d env (reply_at_log_request _ _ _ _ _ _ Hreply)).
    + intros lc card name Hcard Hn.
      apply (tail_mutates _ lr le d env (reply_at_log_request _ _ _ _ _ _ Hreply)
               _ _ _ lc card name (card_at_log_request _ _ _ _ _ _ _ Hcard) Hn).
      intros v. frame.
  - intros cc opts email cd He Hc out. subst out.
    rewrite (store_tail sk ep tr hasattr cc opts true email cd lr w He Hc (Htr _)).
    split.
    + intros Hnc.
      now apply (tail_no_card _ lr le d env (reply_at_log_request _ _ _ _ _ _ Hreply)).
    + intros lc card name Hcard Hn.
      apply (tail_mutates _ lr le d env (reply_at_log_request _ _ _ _ _ _ Hreply)
               _ _ _ lc card name (card_at_log_request _ _ _ _ _ _ _ Hcard) Hn).
      intros v. unfold store_rest. frame.
Qed.

(** ** The request builders *)

(** With an options dict, [_pin_base] returns the five entries, an absent
    option giving the empty string (the default currency for
    ['currency']). *)
Lemma pin_base_of_dict (money : money) (opts : options_t) :
  _pin_base money (Some opts) =
    Ok (list_to_map [
          ("amount", PStr (toMinorUnits money));
          ("email", PStr (default "" (scalars opts !! "email")));
          ("description", PStr (default "" (scalars opts !! "description")));
          ("currency", PStr (default "AUD" (scalars opts !! "currency")));
          ("ip_address", PStr (default "" (scalars opts !! "ip")))]).
Proof. reflexivity. Qed.

(** C8: [_pin_base] at the default of no options.  The operations declare
    [options=None]; [_pin_base] then calls [None.get] and raises
    [AttributeError] instead of returning the payload with its defaults,
    and so does [capture], which needs nothing else from the options. *)
Theorem pin_base_raises_without_options
        (sk ep : string) (tr : request -> result val)
        (dos : string -> option decimal)
        (money : money) (authorization : string) (commit : bool) (w : world) :
  _pin_base money None = Raise AttributeError /\
  capture sk ep tr dos money authorization None commit w = (Raise AttributeError, w).
Proof. split; reflexivity. Qed.

(** C5: [authorize] builds the card payload and POSTs it to [/cards], and
    then raises [NameError]: the name [card] that it passes to
    [_pin_response] is bound nowhere.  It creates no Charge, and no
    Card-token entity either; it never returns a result. *)
Theorem authorize_raises_name_error
        (sk ep : string) (tr : request -> result val)
        (money : money) (cc : CreditCard) (o : option options_t) (w : world) :
  (exists e w', authorize sk ep tr money cc o w = (Raise e, w') /\ db w' = db w) /\
  authorize Fixtures.sk Fixtures.host Fixtures.transport money
            Fixtures.card Fixtures.options (Fixtures.world_with Fixtures.error_heap)
  = (Raise (NameError "card"),
     log_request
       (build_request Fixtures.sk Fixtures.host POST "/cards"
          (PStr <$> list_to_map [
             ("number", "4200000000000000");
             ("expiry_month", "05");
             ("expiry_year", "2030");
             ("cvc", "123");
             ("name", "Ada Lovelace");
             ("address_line1", "1 Main St");
             ("address_line2", "");
             ("address_city", "Perth");
             ("address_postcode", "6000");
             ("address_state", "WA");
             ("address_country", "AU")]))
       (Fixtures.world_with Fixtures.error_heap)).
Proof.
  split.
  - unfold authorize.
    destruct (_pin_card cc o) as [cd | e] eqn:Ec.
    + rewrite (bind_ok _ _ _ _ _ (lift_ok _ _ w eq_refl)).
      destruct (tr (build_request sk ep POST "/cards" (PStr <$> cd))) as [resp | e] eqn:Et.
      * rewrite (bind_ok _ _ _ _ _ (pin_request_ok _ _ _ _ _ _ _ w Et)).
        eexists _, _. split; reflexivity.
      * eexists _, _. unfold bind, _pin_request, modify, lift. rewrite Et.
        split; reflexivity.
    + eexists _, _. unfold bind, lift. split; reflexivity.
  - vm_compute. reflexivity.
Qed.

Lemma pin_base_no_tokens (money : money) (o : option options_t)
      (base : gmap string pval) :
  _pin_base money o = Ok base ->
  base !! "customer_token" = None /\ base !! "card_token" = None.
Proof.
  destruct o as [opts |]; [| discriminate].
  rewrite pin_base_of_dict. intros [= <-]. split; reflexivity.
Qed.

Lemma pin_request_run sk ep tr method url data w r w' :
  _pin_request sk ep tr method url data w = (r, w') ->
  w' = log_request (build_request sk ep method url data) w /\
  r = tr (build_request sk ep method url data).
Proof. unfold _pin_request, bind, modify, lift. now intros [= <- <-]. Qed.

Lemma capture_sends (sk ep : string) (tr : request -> result val)
      (dos : string -> option decimal) (money : money) (authorization : string)
      (o : option options_t) (commit : bool) (w : world) (data : gmap string pval) :
  capture_data money authorization o = Ok data ->
  sent (capture sk ep tr dos money authorization o commit w).2 =
    (sent w ++ [build_request sk ep POST "/charges" data])%list.
Proof.
  intros Hd. unfold capture.
  rewrite (bind_ok _ _ _ _ _ (lift_ok _ _ w Hd)).
  match goal with
  | |- sent (bind ?m ?k w).2 = _ =>
      destruct (bind m k w) as [r w'] eqn:E
  end.
  apply bind_inv in E as [(resp & w1 & H1 & E) | (e & H1 & _)].
  - apply pin_request_run in H1 as [-> _]. cbn [snd].
    change (sent w' =
            sent (log_request (build_request sk ep POST "/charges" data) w)).
    by_keeps_on sent E. frame.
  - apply pin_request_run in H1 as [-> _]. reflexivity.
Qed.

(** C4: for every authorization token, [capture] sends a payload (the base
    payload of [_pin_base], when that is built) that carries the token as
    [customer_token] when it starts with ["cus_"], as [card_token] when it
    starts with ["card_"], and under neither key for any other prefix;
    building the payload raises in none of the three cases. *)
Theorem capture_dispatches_on_prefix
        (sk ep : string) (tr : request -> result val)
        (dos : string -> option decimal)
        (money : money) (authorization : string) (opts : options_t)
        (commit : bool) (w : world) :
  exists data,
    capture_data money authorization (Some opts) = Ok data /\
    sent (capture sk ep tr dos money authorization (Some opts) commit w).2 =
      (sent w ++ [build_request sk ep POST "/charges" data])%list /\
    (String.prefix "cus_" authorization = true ->
       data !! "customer_token" = Some (PStr authorization) /\
       data !! "card_token" = None) /\
    (String.prefix "cus_" authorization = false ->
     String.prefix "card_" authorization = true ->
       data !! "card_token" = Some (PStr authorization) /\
       data !! "customer_token" = None) /\
    (String.prefix "cus_" authorization = false ->
     String.prefix "card_" authorization = false ->
       data !! "customer_token" = None /\ data !! "card_token" = None).
Proof.
  destruct (_pin_base money (Some opts)) as [base | e] eqn:Eb;
    [| rewrite pin_base_of_dict in Eb; discriminate].
  destruct (pin_base_no_tokens _ _ _ Eb) as [Hcus Hcard].
  assert (Hd : exists data,
             capture_data money authorization (Some opts) = Ok data /\
             data = if String.prefix "cus_" authorization
                    then <["customer_token" := PStr authorization]> base
                    else if String.prefix "card_" authorization
                         then <["card_token" := PStr authorization]> base
                         else base).
  { unfold capture_data. rewrite Eb. cbn [rbind].
    destruct (String.prefix "cus_" authorization);
      [| destruct (String.prefix "card_" authorization)]; eauto. }
  destruct Hd as (data & Hd & Hdata). exists data.
  split; [exact Hd |]. split; [now apply capture_sends |].
  repeat split; intros; subst data.
  - rewrite H. apply lookup_insert_eq.
  - rewrite H. now rewrite lookup_insert_ne.
  - rewrite H, H0. apply lookup_insert_eq.
  - rewrite H, H0. now rewrite lookup_insert_ne.
  - now rewrite H, H0.
  - now rewrite H, H0.
Qed.

(** ** The Customer upsert of [store] *)

(** The loop over [response.items()] copies every entry but ['card']. *)
Lemma setattr_items_except_card_spec (i : instance) (items : gmap string val) :
  setattr_items_except_card i items =
    Instance (inst_model i) (inst_pk i) (delete "card" items ∪ inst_attrs i).
Proof.
  unfold setattr_items_except_card.
  apply (map_fold_weak_ind
           (fun r m => r = Instance (inst_model i) (inst_pk i)
                                    (delete "card" m ∪ inst_attrs i))).
  - rewrite delete_empty, (left_id_L ∅ (∪)). now destruct i.
  - intros k x m r Hk ->. case_bool_decide as Hne.
    + unfold setattr. cbn [inst_model inst_pk inst_attrs]. f_equal.
      rewrite delete_insert_ne by congruence.
      now rewrite insert_union_l.
    + assert (k = "card") as -> by (destruct (decide (k = "card")); [done | contradiction]).
      now rewrite delete_insert_eq.
Qed.

Lemma customer_row_card env card_pk old :
  customer_row env card_pk old !! "card" = Some (VCard card_pk).
Proof.
  unfold customer_row. rewrite lookup_union_r by apply lookup_delete_eq.
  apply lookup_insert_eq.
Qed.

Lemma lookup_customer_Some (token : string) (w : world) (c : instance) :
  lookup_customer token w = Some c ->
  exists pk, c = Instance PinCustomer (Some pk) (inst_attrs c) /\
             customers w !! pk = Some (inst_attrs c) /\
             inst_attrs c !! "token" = Some (VStr token).
Proof.
  unfold lookup_customer.
  destruct (list_find _ (customers w)) as [[pk row] |] eqn:E; [| discriminate].
  intros [= <-]. apply list_find_Some in E as (Hrow & Htok & _).
  exists pk. cbn. auto.
Qed.

Section Upsert.
Variables (hasattr : string -> bool) (cd : gmap string string) (cc : CreditCard).
Variables (w : world) (lr le lc : loc) (d env card : gmap string val).
Hypothesis Hreply : reply_at w lr le d env.
Hypothesis Hcard : card_at w lr le lc env card.


End Upsert.

Lemma tail_run (w : world) (lr le lc : loc) (d env card : gmap string val)
      (name : val) (rest : val -> M (option instance)) (dflt : option instance)
      (t : string) (x : option instance) (w4 : world) :
  reply_at w lr le d env ->
  card_at w lr le lc env card ->
  card !! "name" = Some name ->
  rest (VRef (length (heap w))) (set_heap (heap_after w env card lc) w) = (Ok x, w4) ->
  tail_of_operation lr rest dflt t true w = _pin_response (VRef lr) t x w4.
Proof.
  intros Hreply Hcard Hn Hrest. unfold tail_of_operation.
  rewrite (bind_ok _ _ _ _ _ (commit_and_response_envelope w lr le d env Hreply)).
  unfold bind at 1. unfold bind at 1.
  rewrite (copy_response_run w lr le d env Hreply lc card Hcard name Hn).
  now rewrite Hrest.
Qed.


(** * The properties on the fixtures *)

Import Fixtures Runs.

Lemma reply_heap_shape (success : bool) (token : string) (w : world) :
  heap w = reply_heap success token ->
  reply_at w 0%nat 1%nat {["response" := VRef 1%nat]} (envelope success token) /\
  card_at w 0%nat 1%nat 2%nat (envelope success token) card_object.
Proof.
  intros H. unfold reply_at, card_at. rewrite H.
  repeat split; try reflexivity; discriminate.
Qed.

(** The claim C1 as stated fails: a reply classified FAILURE (its envelope
    carries [success=false]) is persisted all the same. *)
Lemma failure_reply_is_persisted :
  (purchase_run (reply_heap false "ch_1") true).1 =
    Ok (GatewayResult "FAILURE" (VRef 1%nat)
          (Some (Instance PinCharge (Some 0%nat)
                   (list_to_map [("success", VBool false); ("token", VStr "ch_1");
                                 ("amount", VDec (Dec 999 (-2)));
                                 ("error_message", VStr "");
                                 ("card", VCard 0)])))) /\
  saves (purchase_run (reply_heap false "ch_1") true).2 =
    [(PinCard, 0%nat); (PinCharge, 0%nat)] /\
  length (cards (purchase_run (reply_heap false "ch_1") true).2) = 1%nat /\
  length (charges (purchase_run (reply_heap false "ch_1") true).2) = 1%nat.
Proof. repeat split; vm_compute; reflexivity. Qed.

Lemma persists_only_on_commit_and_envelope_witness :
  db (purchase_run (reply_heap true "ch_1") true).2
    <> db (world_with (reply_heap true "ch_1")) /\
  (true = true /\
   exists req resp,
     transport req = Ok resp /\
     has_envelope (world_with (reply_heap true "ch_1")) resp).
Proof.
  assert (Hdb : db (purchase_run (reply_heap true "ch_1") true).2
                <> db (world_with (reply_heap true "ch_1"))).
  { vm_compute. discriminate. }
  split; [exact Hdb |].
  exact (proj1 (persists_only_on_commit_and_envelope
                  sk host transport hasattr decimal_of_int_literal)
               amount card options true (world_with (reply_heap true "ch_1"))
               _ _ (surjective_pairing _) Hdb).
Defined.



Lemma capture_dispatches_on_prefix_witness :
  (exists data,
     capture_data amount "cus_123" options = Ok data /\
     data !! "customer_token" = Some (PStr "cus_123") /\
     data !! "card_token" = None) /\
  (exists data,
     capture_data amount "card_456" options = Ok data /\
     data !! "card_token" = Some (PStr "card_456") /\
     data !! "customer_token" = None) /\
  (exists data,
     capture_data amount "tok_789" options = Ok data /\
     data !! "customer_token" = None /\
     data !! "card_token" = None).
Proof.
  split; [| split].
  - destruct (capture_dispatches_on_prefix sk host transport decimal_of_int_literal
                amount "cus_123" (Options (list_to_map [("email", "ada@example.org")])
                                          (Some address))
                true (world_with error_heap))
      as (data & Hd & _ & H & _ & _).
    exists data. split; [exact Hd | exact (H eq_refl)].
  - destruct (capture_dispatches_on_prefix sk host transport decimal_of_int_literal
                amount "card_456" (Options (list_to_map [("email", "ada@example.org")])
                                           (Some address))
                true (world_with error_heap))
      as (data & Hd & _ & _ & H & _).
    exists data. split; [exact Hd | exact (H eq_refl eq_refl)].
  - destruct (capture_dispatches_on_prefix sk host transport decimal_of_int_literal
                amount "tok_789" (Options (list_to_map [("email", "ada@example.org")])
                                          (Some address))
                true (world_with error_heap))
      as (data & Hd & _ & _ & _ & H).
    exists data. split; [exact Hd | exact (H eq_refl eq_refl)].
Defined.

(** The claim C9 as stated fails for [store]: with [commit=false] and a
    token that names a stored Customer, the persisted-entity slot of the
    result holds that Customer, not null (nothing is written). *)
Lemma dry_run_store_returns_found_customer :
  (store_run (reply_heap true "cus_1") false).1 =
    Ok (GatewayResult "SUCCESS" (VRef 1%nat)
          (Some (Instance PinCustomer (Some 0%nat) {["token" := VStr "cus_1"]}))) /\
  db (store_run (reply_heap true "cus_1") false).2 =
    db (world_with_customer (reply_heap true "cus_1")).
Proof. split; vm_compute; reflexivity. Qed.

Lemma commit_false_writes_nothing_witness :
  ((purchase_run (reply_heap true "ch_1") false).1 =
     Ok (GatewayResult "SUCCESS" (VRef 1%nat) None) /\
   obj (GatewayResult "SUCCESS" (VRef 1%nat) None) = None /\
   db (purchase_run (reply_heap true "ch_1") false).2 =
     db (world_with (reply_heap true "ch_1"))) /\
  (db (store_run (reply_heap true "cus_1") false).2 =
     db (world_with_customer (reply_heap true "cus_1")) /\
   length (sent (store_run (reply_heap true "cus_1") false).2) = 1%nat /\
   length (signals (store_run (reply_heap true "cus_1") false).2) = 1%nat).
Proof.
  split.
  - assert (E : purchase_run (reply_heap true "ch_1") false =
                (Ok (GatewayResult "SUCCESS" (VRef 1%nat) None),
                 (purchase_run (reply_heap true "ch_1") false).2)).
    { vm_compute. reflexivity. }
    destruct (proj1 (commit_false_writes_nothing
                       sk host transport hasattr decimal_of_int_literal)
                    amount card options) as (_ & Hk & Ho).
    split; [exact (f_equal fst E) |].
    split; [exact (Ho _ _ _ E) | exact (Hk _ _ _ E)].
  - destruct (proj2 (proj2 (commit_false_writes_nothing
                              sk host transport hasattr decimal_of_int_literal))
                    card options_with_token) as (Hrun & Hk & _).
    split; [exact (Hk _ _ _ (surjective_pairing _)) |].
    unfold store_run. rewrite Hrun. split; vm_compute; reflexivity.
Defined.

Lemma persistence_mutates_raw_response_witness :
  name_removed 1%nat 2%nat (envelope true "ch_1") card_object "purchase"
               (purchase_run (reply_heap true "ch_1") true) /\
  (exists res, (purchase_run (reply_heap true "ch_1") true).1 = Ok res) /\
  delete "name" card_object = {["token" := VStr "card_1"]}.
Proof.
  destruct (reply_heap_shape true "ch_1" (world_with (reply_heap true "ch_1")) eq_refl)
    as [Hreply Hcard].
  split; [| split].
  - assert (Hn : card_object !! "name" = Some (VStr "x")) by reflexivity.
    exact (proj2 (proj1 (persistence_mutates_raw_response
                    sk host transport hasattr decimal_of_int_literal
                    (world_with (reply_heap true "ch_1")) 0%nat 1%nat
                    {["response" := VRef 1%nat]} (envelope true "ch_1")
                    Hreply (fun _ => eq_refl))
                  amount card options _ _ eq_refl eq_refl)
            2%nat card_object (VStr "x") Hcard Hn).
  - eexists. vm_compute. reflexivity.
  - vm_compute. reflexivity.
Defined.


(** ** Further evaluations of the code *)


(** The purchase of the specification's example: [9.99] is stored as
    [9.99], the error message as the empty string, and a StoredCard
    exists. *)
Lemma purchase_example :
  (purchase_run (reply_heap true "ch_1") true).1 =
    Ok (GatewayResult "SUCCESS" (VRef 1%nat)
          (Some (Instance PinCharge (Some 0%nat)
                   (list_to_map [("success", VBool true); ("token", VStr "ch_1");
                                 ("amount", VDec (Dec 999 (-2)));
                                 ("error_message", VStr "");
                                 ("card", VCard 0)])))) /\
  cards (purchase_run (reply_heap true "ch_1") true).2 =
    [list_to_map [("expiry_month", VStr "05"); ("expiry_year", VStr "2030");
                  ("number", VStr "4200000000000000"); ("cvc", VStr "123");
                  ("address_line1", VStr "1 Main St"); ("address_line2", VStr "");
                  ("address_city", VStr "Perth"); ("address_postcode", VStr "6000");
                  ("address_state", VStr "WA"); ("address_country", VStr "AU");
                  ("first_name", VStr "Ada"); ("last_name", VStr "Lovelace")]].
Proof. split; vm_compute; reflexivity. Qed.

(** [void], [recurring] and [unstore] raise at once and send nothing. *)
Lemma unsupported_operations (sk ep : string) (tr : request -> result val)
      (money : money) (cc : CreditCard) (identification : string)
      (o : option options_t) (w : world) :
  void identification o w = (Raise NotImplementedError, w) /\
  recurring money cc o w = (Raise NotImplementedError, w) /\
  unstore identification o w = (Raise NotImplementedError, w).
Proof. repeat split. Qed.

(** * Further properties of the gateway *)

(** ** Construction *)

Lemma endpoints_of_mode (tm : bool) :
  endpoints !! (if tm then "TEST" else "LIVE") =
    Some (if tm then "test-api.pin.net.au" else "api.pin.net.au").
Proof. now destruct tm. Qed.

(** X1: [__init__] yields a gateway exactly when the settings carry the
    test-mode flag and a secret for the mode that the flag selects; the
    gateway then holds that flag, that secret and the endpoint of that
    mode.  In every other case it raises [GatewayNotConfigured], and the
    settings of the other mode are never read. *)
Theorem init_configures_selected_mode (s : settings_t) :
  (forall g,
     __init__ s = Configured g <->
     exists ms pin of_mode,
       MERCHANT_TEST_MODE s = Some (test_mode g) /\
       MERCHANT_SETTINGS s = Some ms /\
       ms !! "pin" = Some pin /\
       pin !! (if test_mode g then "TEST" else "LIVE") = Some of_mode /\
       of_mode !! "SECRET" = Some (gw_secret_key g) /\
       gw_endpoint g =
         if test_mode g then "test-api.pin.net.au" else "api.pin.net.au") /\
  ((exists g, __init__ s = Configured g) \/ __init__ s = not_configured) /\
  (forall tm ms pin other,
     MERCHANT_TEST_MODE s = Some tm ->
     MERCHANT_SETTINGS s = Some ms ->
     ms !! "pin" = Some pin ->
     __init__ (Settings (Some tm)
                 (Some (<["pin" := <[(if tm then "LIVE" else "TEST") := other]> pin]> ms)))
     = __init__ s).
Proof.
  split; [| split].
  - intros g. unfold __init__. split.
    + destruct (MERCHANT_TEST_MODE s) as [tm |]; [| discriminate].
      destruct (MERCHANT_SETTINGS s) as [ms |]; [| discriminate].
      destruct (ms !! "pin") as [pin |] eqn:Ep; [| discriminate].
      destruct (pin !! (if tm then "TEST" else "LIVE")) as [of_mode |] eqn:Em;
        [| discriminate].
      destruct (of_mode !! "SECRET") as [secret |] eqn:Es; [| discriminate].
      rewrite endpoints_of_mode. intros [= <-]. cbn [test_mode gw_secret_key gw_endpoint].
      exists ms, pin, of_mode. repeat split; assumption || reflexivity.
    + intros (ms & pin & of_mode & -> & -> & Hp & Hm & Hs & He).
      rewrite Hp, Hm, Hs, endpoints_of_mode. destruct g as [tm secret ep].
      cbn in He. now subst ep.
  - unfold __init__.
    destruct (MERCHANT_TEST_MODE s) as [tm |]; [| now right].
    destruct (MERCHANT_SETTINGS s) as [ms |]; [| now right].
    destruct (ms !! "pin") as [pin |]; [| now right].
    destruct (pin !! (if tm then "TEST" else "LIVE")) as [of_mode |]; [| now right].
    destruct (of_mode !! "SECRET") as [secret |]; [| now right].
    left. rewrite endpoints_of_mode. eauto.
  - intros tm ms pin other Ht Hms Hp. unfold __init__.
    rewrite Ht, Hms, Hp. cbn [MERCHANT_TEST_MODE MERCHANT_SETTINGS].
    rewrite lookup_insert_eq.
    rewrite lookup_insert_ne by (destruct tm; discriminate).
    reflexivity.
Qed.

Lemma init_configures_selected_mode_witness :
  __init__ (Settings (Some true)
              (Some {["pin" := {["TEST" := {["SECRET" := "sk_test"]}]}]}))
  = Configured (Gateway true "sk_test" "test-api.pin.net.au").
Proof.
  apply (proj1 (init_configures_selected_mode _)).
  exists {["pin" := {["TEST" := {["SECRET" := "sk_test"]}]}]},
         {["TEST" := {["SECRET" := "sk_test"]}]}, {["SECRET" := "sk_test"]}.
  repeat split; reflexivity.
Defined.

(** ** The card payload *)

Lemma dict_getitem_inv (d : gmap string string) (key : string) (r : result string) :
  dict_getitem d key = r ->
  (exists x, d !! key = Some x /\ r = Ok x) \/
  (d !! key = None /\ r = Raise (KeyError (VStr key))).
Proof.
  unfold dict_getitem. destruct (d !! key) as [x |]; intros <-; eauto.
Qed.

(** X2: [_pin_card] builds the payload exactly when the options are a dict
    whose billing address has the five keys it reads with [address[key]];
    otherwise it raises [TypeError] for [options=None], [KeyError] for a
    missing ['billing_address'], or a [KeyError] that names a key which the
    address indeed lacks.  ['address2'] is never required. *)
Theorem pin_card_requires_address (cc : CreditCard) (o : option options_t) :
  ((exists cd, _pin_card cc o = Ok cd) <->
   exists opts address,
     o = Some opts /\ billing_address opts = Some address /\
     forall key, key ∈ required_address_keys -> is_Some (address !! key)) /\
  (forall e, _pin_card cc o = Raise e ->
     (o = None /\ e = TypeError) \/
     (exists opts, o = Some opts /\ billing_address opts = None /\
                   e = KeyError (VStr "billing_address")) \/
     (exists opts address key,
        o = Some opts /\ billing_address opts = Some address /\
        key ∈ required_address_keys /\ address !! key = None /\
        e = KeyError (VStr key))).
Proof.
  unfold required_address_keys. split; [split |].
  - intros (cd & H). unfold _pin_card in H.
    destruct o as [opts |]; [| discriminate].
    destruct (billing_address opts) as [address |] eqn:Ea; [| discriminate].
    exists opts, address. split; [reflexivity |]. split; [exact Ea |].
    unfold dict_getitem in H.
    destruct (address !! "address1") eqn:E1; [| discriminate].
    destruct (address !! "city") eqn:E2; [| discriminate].
    destruct (address !! "zip") eqn:E3; [| discriminate].
    destruct (address !! "state") eqn:E4; [| discriminate].
    destruct (address !! "country") eqn:E5; [| discriminate].
    intros key Hk. repeat (apply elem_of_cons in Hk as [-> | Hk]; [eauto |]).
    now apply elem_of_nil in Hk.
  - intros (opts & address & -> & Ha & Hk). unfold _pin_card. rewrite Ha.
    unfold dict_getitem.
    destruct (Hk "address1" ltac:(set_solver)) as [x1 ->].
    destruct (Hk "city" ltac:(set_solver)) as [x2 ->].
    destruct (Hk "zip" ltac:(set_solver)) as [x3 ->].
    destruct (Hk "state" ltac:(set_solver)) as [x4 ->].
    destruct (Hk "country" ltac:(set_solver)) as [x5 ->].
    cbn [rbind]. eauto.
  - intros e H. unfold _pin_card in H.
    destruct o as [opts |]; [| left; split; [reflexivity | congruence]].
    right.
    destruct (billing_address opts) as [address |] eqn:Ea;
      [| left; exists opts; repeat split; congruence].
    right. exists opts, address.
    unfold dict_getitem in H.
    destruct (address !! "address1") eqn:E1;
      [| exists "address1"; split; [reflexivity |]; split; [exact Ea |];
         split; [set_solver |]; split; [assumption | now inversion H]].
    destruct (address !! "city") eqn:E2;
      [| exists "city"; split; [reflexivity |]; split; [exact Ea |];
         split; [set_solver |]; split; [assumption | now inversion H]].
    destruct (address !! "zip") eqn:E3;
      [| exists "zip"; split; [reflexivity |]; split; [exact Ea |];
         split; [set_solver |]; split; [assumption | now inversion H]].
    destruct (address !! "state") eqn:E4;
      [| exists "state"; split; [reflexivity |]; split; [exact Ea |];
         split; [set_solver |]; split; [assumption | now inversion H]].
    destruct (address !! "country") eqn:E5;
      [| exists "country"; split; [reflexivity |]; split; [exact Ea |];
         split; [set_solver |]; split; [assumption | now inversion H]].
    discriminate H.
Qed.

Lemma pin_card_requires_address_witness :
  exists cd, _pin_card card options = Ok cd.
Proof.
  apply (proj2 (proj1 (pin_card_requires_address card options))).
  exists (Options (list_to_map [("email", "ada@example.org")]) (Some address)), address.
  split; [reflexivity |]. split; [reflexivity |].
  intros key Hk. unfold required_address_keys in Hk.
  repeat (apply elem_of_cons in Hk as [-> | Hk]; [eexists; reflexivity |]).
  now apply elem_of_nil in Hk.
Defined.

Lemma fmt_02d_small :
  forallb (fun k => (String.length (fmt_02d (Z.of_nat k)) =? 2)%nat &&
                    bool_decide (Z_of_str (fmt_02d (Z.of_nat k)) = Some (Z.of_nat k)))
          (seq 0 100) = true.
Proof. vm_compute. reflexivity. Qed.

Lemma fmt_02d_parses (n : Z) : Z_of_str (fmt_02d n) = Some n.
Proof.
  unfold fmt_02d.
  destruct ((0 <=? n) && (n <? 10)) eqn:E; [| apply Z_of_str_of_Z].
  apply andb_true_iff in E as [H0 H10].
  apply Z.leb_le in H0. apply Z.ltb_lt in H10.
  pose proof fmt_02d_small as Hs. rewrite forallb_forall in Hs.
  specialize (Hs (Z.to_nat n)).
  rewrite Z2Nat.id in Hs by lia.
  assert (Hin : In (Z.to_nat n) (seq 0 100)) by (apply in_seq; lia).
  apply Hs in Hin. apply andb_true_iff in Hin as [_ Hp].
  apply bool_decide_eq_true in Hp. unfold fmt_02d in Hp.
  replace ((0 <=? n) && (n <? 10)) with true in Hp; [exact Hp |].
  symmetry. apply andb_true_iff. split; [now apply Z.leb_le | now apply Z.ltb_lt].
Qed.

Lemma fmt_02d_two_chars (n : Z) : 0 <= n < 100 -> String.length (fmt_02d n) = 2%nat.
Proof.
  intros Hn. pose proof fmt_02d_small as Hs. rewrite forallb_forall in Hs.
  specialize (Hs (Z.to_nat n)).
  rewrite Z2Nat.id in Hs by lia.
  assert (Hin : In (Z.to_nat n) (seq 0 100)) by (apply in_seq; lia).
  apply Hs in Hin. apply andb_true_iff in Hin as [Hl _].
  now apply Nat.eqb_eq in Hl.
Qed.

(** X3: in the payload that [_pin_card] builds, [expiry_month] reads back
    as the month of the card whatever the month is, and has exactly two
    characters for every month from 1 to 12 (["%02d"] pads a single digit
    with a zero); [expiry_year] reads back as the year. *)
Theorem pin_card_expiry (cc : CreditCard) (o : option options_t)
        (cd : gmap string string) :
  _pin_card cc o = Ok cd ->
  exists m y,
    cd !! "expiry_month" = Some m /\ cd !! "expiry_year" = Some y /\
    Z_of_str m = Some (month cc) /\ Z_of_str y = Some (year cc) /\
    (1 <= month cc <= 12 -> String.length m = 2%nat).
Proof.
  intros H. unfold _pin_card in H.
  destruct o as [opts |]; [| discriminate].
  destruct (billing_address opts) as [address |]; [| discriminate].
  destruct (dict_getitem address "address1"); [| discriminate].
  destruct (dict_getitem address "city"); [| discriminate].
  destruct (dict_getitem address "zip"); [| discriminate].
  destruct (dict_getitem address "state"); [| discriminate].
  destruct (dict_getitem address "country"); [| discriminate].
  cbn [rbind] in H. injection H as <-.
  exists (fmt_02d (month cc)), (str_of_Z (year cc)).
  split; [reflexivity |]. split; [reflexivity |].
  split; [apply fmt_02d_parses |]. split; [apply Z_of_str_of_Z |].
  intros Hm. apply fmt_02d_two_chars. lia.
Qed.

Lemma pin_card_expiry_witness :
  exists cd m y,
    _pin_card card options = Ok cd /\
    cd !! "expiry_month" = Some m /\ cd !! "expiry_year" = Some y /\
    Z_of_str m = Some 5 /\ Z_of_str y = Some 2030 /\
    (1 <= 5 <= 12 -> String.length m = 2%nat).
Proof.
  assert (Hcd : exists cd, _pin_card card options = Ok cd)
    by (eexists; reflexivity).
  destruct Hcd as (cd & H).
  destruct (pin_card_expiry card options cd H) as (m & y & Hm).
  exists cd, m, y. split; [exact H | exact Hm].
Defined.

(** ** The wire amount *)




(** ** Classification and notification *)

Lemma SSIG_getitem_inv (v : val) (ss : string * signal) :
  SSIG_getitem v = Ok ss -> exists b, ss = SSIG b.
Proof.
  unfold SSIG_getitem. destruct v as [| b | z | s | d | l | pk]; try discriminate.
  - intros [= <-]. now exists b.
  - destruct z as [| [p | p |] | p]; try discriminate; intros [= <-];
      [now exists false | now exists true].
  - destruct (dec_eqb d (Dec 1 0)); [intros [= <-]; now exists true |].
    destruct (dec_eqb d (Dec 0 0)); [intros [= <-]; now exists false | discriminate].
Qed.

(** X5: whatever the reply is, when [_pin_response] returns, the status is
    one of [SSIG]'s two, the world has changed by exactly one notification
    (the signal that [SSIG] pairs with that status, tagged with the
    operation and carrying the response of the result), and the [obj] slot
    is the object it was given; when it raises, nothing has been
    published and the world is as it was. *)
Theorem pin_response_outcome (resp : val) (signal_type : string)
        (o : option instance) (w : world) (r : result gateway_result) (w' : world) :
  _pin_response resp signal_type o w = (r, w') ->
  match r with
  | Ok res =>
      obj res = o /\
      exists b : bool,
        status res = (SSIG b).1 /\
        w' = log_signal (Notification (SSIG b).2 signal_type (response res)) w
  | Raise _ => w' = w
  end.
Proof.
  unfold _pin_response. intros H.
  apply bind_inv in H as [(b & w1 & H1 & H) | (e & H1 & ->)].
  2: { pose proof (py_contains_reads "response" resp w) as Hw.
       now rewrite H1 in Hw. }
  pose proof (py_contains_reads "response" resp w) as Hw.
  rewrite H1 in Hw. cbn in Hw. subst w1.
  assert (Hrs : forall rs w2,
            (if b then
               do resp0 <- py_getitem resp "response";
               do has_success <- py_contains "success" resp0;
               if has_success : bool then
                 do success <- py_getitem resp0 "success";
                 ret (resp0, success)
               else ret (resp0, VBool true)
             else ret (resp, VBool false)) w = (rs, w2) -> w2 = w).
  { intros rs w2 E. destruct b; [| now inversion E].
    apply bind_inv in E as [(x & w3 & E1 & E) | (e & E1 & _)].
    2: { pose proof (py_getitem_reads resp "response" w) as Hg.
         now rewrite E1 in Hg. }
    pose proof (py_getitem_reads resp "response" w) as Hg.
    rewrite E1 in Hg. cbn in Hg. subst w3.
    apply bind_inv in E as [(hs & w3 & E2 & E) | (e & E2 & _)].
    2: { pose proof (py_contains_reads "success" x w) as Hc.
         now rewrite E2 in Hc. }
    pose proof (py_contains_reads "success" x w) as Hc.
    rewrite E2 in Hc. cbn in Hc. subst w3.
    destruct hs; [| now inversion E].
    apply bind_inv in E as [(y & w3 & E3 & E) | (e & E3 & _)].
    - pose proof (py_getitem_reads x "success" w) as Hg.
      rewrite E3 in Hg. cbn in Hg. subst w3. now inversion E.
    - pose proof (py_getitem_reads x "success" w) as Hg.
      now rewrite E3 in Hg. }
  apply bind_inv in H as [([resp' success] & w2 & H2 & H) | (e & H2 & ->)].
  2: { exact (Hrs _ _ H2). }
  apply Hrs in H2. subst w2.
  apply bind_inv in H as [([st sg] & w2 & H3 & H) | (e & H3 & ->)].
  2: { now apply lift_inv in H3 as [_ ->]. }
  apply lift_inv in H3 as [H3 ->].
  symmetry in H3. apply SSIG_getitem_inv in H3 as (b0 & Hb).
  unfold bind, modify, ret in H. injection H as <- <-.
  cbn [obj status response]. split; [reflexivity |].
  exists b0. now rewrite <- Hb.
Qed.

Lemma pin_response_outcome_witness :
  obj (GatewayResult "FAILURE" (VRef 0%nat) None) = None /\
  exists b : bool,
    status (GatewayResult "FAILURE" (VRef 0%nat) None) = (SSIG b).1 /\
    log_signal (Notification transaction_was_unsuccessful "credit" (VRef 0%nat))
               (world_with error_heap)
    = log_signal (Notification (SSIG b).2 "credit"
                    (response (GatewayResult "FAILURE" (VRef 0%nat) None)))
                 (world_with error_heap).
Proof.
  exact (pin_response_outcome (VRef 0%nat) "credit" None (world_with error_heap)
           (Ok (GatewayResult "FAILURE" (VRef 0%nat) None))
           (log_signal (Notification transaction_was_unsuccessful "credit" (VRef 0%nat))
                       (world_with error_heap))
           eq_refl).
Defined.

Lemma notifies_pin_response (resp : val) (t : string) (o : option instance) :
  notifies_once t status response (_pin_response resp t o).
Proof.
  intros w r w' H. apply pin_response_outcome in H.
  destruct r as [res | e]; [| now subst].
  destruct H as (_ & b & Hs & ->). now exists b.
Qed.

Lemma notifies_bind {A B} (t : string) (st : B -> string) (rp : B -> val)
      (m : M A) (k : A -> M B) :
  keeps signals m -> (forall a, notifies_once t st rp (k a)) ->
  notifies_once t st rp (bind m k).
Proof.
  intros Hm Hk w r w' H.
  apply bind_inv in H as [(a & w1 & H1 & H) | (e & H1 & ->)].
  - specialize (Hk a _ _ _ H). rewrite (Hm _ _ _ H1) in Hk. exact Hk.
  - exact (Hm _ _ _ H1).
Qed.

Lemma keeps_bind_raise {A B X} (f : world -> X) (e : exn) (k : A -> M B) :
  keeps f (bind (raise e) k).
Proof. intros w r w' [= _ <-]. reflexivity. Qed.

Ltac notifies :=
  repeat first [ apply notifies_pin_response
               | apply notifies_bind; [solve [frame] | intros] ].

(** X6: [purchase], [capture], [store] and [credit] publish exactly one
    notification when they return a result (of the signal that goes with
    the status returned, tagged with the name of the operation and
    carrying the response returned) and none when they raise, for every
    input, reply and value of [commit]; [authorize] never publishes any. *)
Theorem operations_notify_once
        (sk ep : string) (tr : request -> result val)
        (hasattr : string -> bool) (dos : string -> option decimal) :
  (forall money cc o commit,
     notifies_once "purchase" status response
       (purchase sk ep tr hasattr dos money cc o commit)) /\
  (forall money auth o commit,
     notifies_once "capture" status response
       (capture sk ep tr dos money auth o commit)) /\
  (forall cc o commit,
     notifies_once "store" status response (store sk ep tr hasattr cc o commit)) /\
  (forall money identification o,
     notifies_once "credit" status response
       (credit sk ep tr money identification o)) /\
  (forall money cc o, keeps signals (authorize sk ep tr money cc o)).
Proof.
  repeat split.
  - intros. unfold purchase. notifies.
  - intros. unfold capture. notifies.
  - intros. unfold store. notifies.
  - intros. unfold credit. notifies.
  - intros. unfold authorize.
    apply keeps_bind; [frame | intros].
    apply keeps_bind; [frame | intros].
    apply keeps_bind_raise.
Qed.

Lemma operations_notify_once_witness :
  exists b : bool,
    "SUCCESS" = (SSIG b).1 /\
    signals (purchase_run (reply_heap true "ch_1") true).2 =
      [Notification (SSIG b).2 "purchase" (VRef 1%nat)].
Proof.
  assert (E : purchase_run (reply_heap true "ch_1") true =
              (Ok (GatewayResult "SUCCESS" (VRef 1%nat)
                     (Some (Instance PinCharge (Some 0%nat)
                        (list_to_map [("success", VBool true); ("token", VStr "ch_1");
                                      ("amount", VDec (Dec 999 (-2)));
                                      ("error_message", VStr "");
                                      ("card", VCard 0)])))),
               (purchase_run (reply_heap true "ch_1") true).2)).
  { vm_compute. reflexivity. }
  exact (proj1 (operations_notify_once sk host transport hasattr
                  decimal_of_int_literal)
               amount card options true _ _ _ E).
Defined.

(** ** Requests *)

Lemma request_then_tail {B} sk ep tr method url data (tail : val -> M B) (w : world) :
  (forall resp, keeps sent (tail resp)) ->
  sent ((do resp <- _pin_request sk ep tr method url data; tail resp) w).2 =
    (sent w ++ [build_request sk ep method url data])%list.
Proof.
  intros Ht.
  destruct ((do resp <- _pin_request sk ep tr method url data; tail resp) w)
    as [r w'] eqn:E.
  apply bind_inv in E as [(resp & w1 & H1 & E) | (e & H1 & _)].
  - apply pin_request_run in H1 as [-> _]. cbn [snd].
    now rewrite (Ht _ _ _ _ E).
  - now apply pin_request_run in H1 as [-> _].
Qed.

(** X7: every operation hands the Transport at most one request, and
    exactly one as soon as its payload is built, whatever the reply, the
    value of [commit] and the outcome: [purchase] and [capture] a POST to
    [/charges], [authorize] a POST to [/cards], [store] a PUT to
    [/customers/{token}] or a POST to [/customers], [credit] a POST to
    [/{identification}/refunds] with an empty body.  When the payload
    cannot be built nothing is sent. *)
Theorem operations_send_one_request
        (sk ep : string) (tr : request -> result val)
        (hasattr : string -> bool) (dos : string -> option decimal) (w : world) :
  (forall money cc o commit,
     sent (purchase sk ep tr hasattr dos money cc o commit w).2 =
       (sent w ++
        match _pin_base money o, _pin_card cc o with
        | Ok base, Ok cd =>
            [build_request sk ep POST "/charges" (<["card" := PDict cd]> base)]
        | _, _ => []
        end)%list) /\
  (forall money auth o commit,
     sent (capture sk ep tr dos money auth o commit w).2 =
       (sent w ++
        match capture_data money auth o with
        | Ok data => [build_request sk ep POST "/charges" data]
        | Raise _ => []
        end)%list) /\
  (forall money cc o,
     sent (authorize sk ep tr money cc o w).2 =
       (sent w ++
        match _pin_card cc o with
        | Ok cd => [build_request sk ep POST "/cards" (PStr <$> cd)]
        | Raise _ => []
        end)%list) /\
  (forall cc o commit,
     sent (store sk ep tr hasattr cc o commit w).2 =
       (sent w ++
        match options_getitem o "email", _pin_card cc o with
        | Ok email, Ok cd =>
            [store_request sk ep o
               (list_to_map [("email", PStr email); ("card", PDict cd)])]
        | _, _ => []
        end)%list) /\
  (forall money identification o,
     sent (credit sk ep tr money identification o w).2 =
       (sent w ++
        [build_request sk ep POST ("/" +:+ identification +:+ "/refunds") ∅])%list).
Proof.
  split; [| split; [| split; [| split]]].
  - intros money cc o commit. unfold purchase.
    destruct (_pin_base money o) as [base | e];
      [| unfold bind, lift; cbn; now rewrite app_nil_r].
    rewrite (bind_ok _ _ _ _ _ (lift_ok _ _ w eq_refl)).
    destruct (_pin_card cc o) as [cd | e];
      [| unfold bind, lift; cbn; now rewrite app_nil_r].
    rewrite (bind_ok _ _ _ _ _ (lift_ok _ _ w eq_refl)).
    apply request_then_tail. intros resp. frame.
  - intros money auth o commit.
    destruct (capture_data money auth o) as [data | e] eqn:Ed.
    + now apply capture_sends.
    + unfold capture. rewrite Ed. unfold bind, lift. cbn. now rewrite app_nil_r.
  - intros money cc o. unfold authorize.
    destruct (_pin_card cc o) as [cd | e];
      [| unfold bind, lift; cbn; now rewrite app_nil_r].
    rewrite (bind_ok _ _ _ _ _ (lift_ok _ _ w eq_refl)).
    apply request_then_tail. intros resp. apply keeps_bind_raise.
  - intros cc o commit. unfold store.
    destruct (options_getitem o "email") as [email | e] eqn:Ee;
      [| unfold bind, lift; cbn; now rewrite app_nil_r].
    rewrite (bind_ok _ _ _ _ _ (lift_ok _ _ w eq_refl)).
    destruct (_pin_card cc o) as [cd | e];
      [| unfold bind, lift; cbn; now rewrite app_nil_r].
    rewrite (bind_ok _ _ _ _ _ (lift_ok _ _ w eq_refl)).
    cbv zeta.
    destruct o as [opts |]; [| discriminate Ee].
    unfold bind at 1. cbn [lift options_contains]. unfold has_key, store_request.
    destruct (scalars opts !! "token") as [token |] eqn:Et.
    + assert (Htoken : options_getitem (Some opts) "token" = Ok token).
      { unfold options_getitem, dict_getitem. now rewrite Et. }
      match goal with
      | |- sent (bind (bind ?m ?k1) ?k2 w).2 = _ =>
          change (bind (bind m k1) k2 w)
            with (bind (bind m k1) k2 w);
          destruct (bind (bind m k1) k2 w) as [r w'] eqn:E
      end.
      apply bind_inv in E as [(resp & w1 & H1 & E) | (e & H1 & _)].
      * rewrite (bind_ok _ _ _ _ _ (lift_ok _ _ w Htoken)) in H1.
        apply pin_request_run in H1 as [-> _]. cbn [snd].
        refine (keeps_run sent _ _ _ _ E _).
        apply keeps_bind; [frame | intros b].
        apply keeps_bind; [destruct b; frame | intros c]. frame.
      * rewrite (bind_ok _ _ _ _ _ (lift_ok _ _ w Htoken)) in H1.
        now apply pin_request_run in H1 as [-> _].
    + apply request_then_tail. intros resp.
      apply keeps_bind; [frame | intros b].
      apply keeps_bind; [destruct b; frame | intros c]. frame.
  - intros money identification o. unfold credit.
    apply request_then_tail. intros resp. frame.
Qed.

Lemma pin_request_raises sk ep tr method url data e w :
  tr (build_request sk ep method url data) = Raise e ->
  _pin_request sk ep tr method url data w =
    (Raise e, log_request (build_request sk ep method url data) w).
Proof. intros H. unfold _pin_request, bind, modify, lift. now rewrite H. Qed.

(** X8: an exception of the Transport is not caught and nothing is
    retried: when the Transport raises on the request of [purchase],
    [capture], [store] or [credit], the operation raises the same
    exception, and all that has happened is the one request: the Store, the
    heap and the notifications are as before. *)
Theorem transport_error_propagates
        (sk ep : string) (tr : request -> result val)
        (hasattr : string -> bool) (dos : string -> option decimal)
        (e : exn) (w : world) :
  (forall req, tr req = Raise e) ->
  (forall money cc o commit base cd,
     _pin_base money o = Ok base -> _pin_card cc o = Ok cd ->
     purchase sk ep tr hasattr dos money cc o commit w =
       (Raise e,
        log_request (build_request sk ep POST "/charges"
                       (<["card" := PDict cd]> base)) w)) /\
  (forall money auth o commit data,
     capture_data money auth o = Ok data ->
     capture sk ep tr dos money auth o commit w =
       (Raise e, log_request (build_request sk ep POST "/charges" data) w)) /\
  (forall cc o commit email cd,
     options_getitem o "email" = Ok email -> _pin_card cc o = Ok cd ->
     store sk ep tr hasattr cc o commit w =
       (Raise e,
        log_request
          (store_request sk ep o
             (list_to_map [("email", PStr email); ("card", PDict cd)])) w)) /\
  (forall money identification o,
     credit sk ep tr money identification o w =
       (Raise e,
        log_request
          (build_request sk ep POST ("/" +:+ identification +:+ "/refunds") ∅) w)).
Proof.
  intros Htr. split; [| split; [| split]].
  - intros money cc o commit base cd Hb Hc. unfold purchase.
    rewrite (bind_ok _ _ _ _ _ (lift_ok _ _ w Hb)).
    rewrite (bind_ok _ _ _ _ _ (lift_ok _ _ w Hc)).
    now rewrite (bind_raise _ _ _ _ _ (pin_request_raises _ _ _ _ _ _ _ w (Htr _))).
  - intros money auth o commit data Hd. unfold capture.
    rewrite (bind_ok _ _ _ _ _ (lift_ok _ _ w Hd)).
    now rewrite (bind_raise _ _ _ _ _ (pin_request_raises _ _ _ _ _ _ _ w (Htr _))).
  - intros cc o commit email cd He Hc. unfold store.
    rewrite (bind_ok _ _ _ _ _ (lift_ok _ _ w He)).
    rewrite (bind_ok _ _ _ _ _ (lift_ok _ _ w Hc)).
    cbv zeta. destruct o as [opts |]; [| discriminate He].
    unfold bind at 1. cbn [lift options_contains]. unfold has_key, store_request.
    destruct (scalars opts !! "token") as [token |] eqn:Et.
    + assert (Htoken : options_getitem (Some opts) "token" = Ok token).
      { unfold options_getitem, dict_getitem. now rewrite Et. }
      apply bind_raise.
      rewrite (bind_ok _ _ _ _ _ (lift_ok _ _ w Htoken)).
      apply pin_request_raises, Htr.
    + apply bind_raise. apply pin_request_raises, Htr.
  - intros money identification o. unfold credit.
    now rewrite (bind_raise _ _ _ _ _ (pin_request_raises _ _ _ _ _ _ _ w (Htr _))).
Qed.

Lemma transport_error_propagates_witness :
  credit sk host (fun _ => Raise (TransportError "connection refused"))
         amount "charges/ch_1" None (world_with [])
  = (Raise (TransportError "connection refused"),
     log_request (build_request sk host POST "/charges/ch_1/refunds" ∅)
                 (world_with [])).
Proof.
  exact (proj2 (proj2 (proj2
    (transport_error_propagates sk host
       (fun _ => Raise (TransportError "connection refused"))
       hasattr decimal_of_int_literal (TransportError "connection refused")
       (world_with []) (fun _ => eq_refl))))
    amount "charges/ch_1" None).
Defined.

(** X9: the payload is built before anything else happens.  With options
    that carry no billing address, [purchase], [authorize] and [store]
    raise [KeyError('billing_address')] and leave the world untouched: no
    request is sent, nothing is saved, nothing is published.  [store]
    reads ['email'] first and raises [KeyError('email')] when the options
    lack it, address or not; [purchase] takes a missing email as the empty
    string. *)
Theorem missing_fields_stop_before_the_request
        (sk ep : string) (tr : request -> result val)
        (hasattr : string -> bool) (dos : string -> option decimal)
        (cc : CreditCard) (opts : options_t) (w : world) :
  (billing_address opts = None ->
   (forall money commit,
      purchase sk ep tr hasattr dos money cc (Some opts) commit w =
        (Raise (KeyError (VStr "billing_address")), w)) /\
   (forall money,
      authorize sk ep tr money cc (Some opts) w =
        (Raise (KeyError (VStr "billing_address")), w)) /\
   (forall commit,
      is_Some (scalars opts !! "email") ->
      store sk ep tr hasattr cc (Some opts) commit w =
        (Raise (KeyError (VStr "billing_address")), w))) /\
  (scalars opts !! "email" = None ->
   (forall commit,
      store sk ep tr hasattr cc (Some opts) commit w =
        (Raise (KeyError (VStr "email")), w)) /\
   (forall money base,
      _pin_base money (Some opts) = Ok base -> base !! "email" = Some (PStr ""))).
Proof.
  split.
  - intros Ha.
    assert (Hc : _pin_card cc (Some opts) = Raise (KeyError (VStr "billing_address"))).
    { unfold _pin_card. now rewrite Ha. }
    split; [| split].
    + intros money commit. unfold purchase.
      rewrite (bind_ok _ _ _ _ _ (lift_ok _ _ w (pin_base_of_dict money opts))).
      apply bind_raise. unfold lift. now rewrite Hc.
    + intros money. unfold authorize. apply bind_raise. unfold lift. now rewrite Hc.
    + intros commit [email He]. unfold store.
      assert (Hemail : options_getitem (Some opts) "email" = Ok email).
      { unfold options_getitem, dict_getitem. now rewrite He. }
      rewrite (bind_ok _ _ _ _ _ (lift_ok _ _ w Hemail)).
      apply bind_raise. unfold lift. now rewrite Hc.
  - intros He. split.
    + intros commit. unfold store. apply bind_raise.
      unfold lift, options_getitem, dict_getitem. now rewrite He.
    + intros money base. rewrite pin_base_of_dict. intros [= <-].
      rewrite He. reflexivity.
Qed.

Lemma missing_fields_stop_before_the_request_witness :
  purchase sk host transport hasattr decimal_of_int_literal amount card
           (Some (Options (list_to_map [("email", "ada@example.org")]) None))
           true (world_with error_heap)
  = (Raise (KeyError (VStr "billing_address")), world_with error_heap).
Proof.
  exact (proj1 (proj1 (missing_fields_stop_before_the_request
                         sk host transport hasattr decimal_of_int_literal card
                         (Options (list_to_map [("email", "ada@example.org")]) None)
                         (world_with error_heap)) eq_refl)
               amount true).
Defined.

(** ** What the operations leave alone *)

(** X10: a dry run does not touch the reply either: with [commit=false],
    [purchase], [capture] and [store] leave every object of the heap as it
    was, so the raw response handed back is the one the Transport decoded;
    the same holds for [credit] and [authorize], which have no persistence
    branch at all. *)
Theorem dry_run_keeps_the_reply
        (sk ep : string) (tr : request -> result val)
        (hasattr : string -> bool) (dos : string -> option decimal) :
  (forall money cc o, keeps heap (purchase sk ep tr hasattr dos money cc o false)) /\
  (forall money auth o, keeps heap (capture sk ep tr dos money auth o false)) /\
  (forall cc o, keeps heap (store sk ep tr hasattr cc o false)) /\
  (forall money identification o, keeps heap (credit sk ep tr money identification o)) /\
  (forall money cc o, keeps heap (authorize sk ep tr money cc o)).
Proof.
  repeat split.
  - intros. rewrite purchase_dry_run. frame.
  - intros. rewrite capture_dry_run. frame.
  - intros. rewrite store_dry_run. frame.
  - intros. unfold credit. frame.
  - intros. unfold authorize.
    apply keeps_bind; [frame | intros].
    apply keeps_bind; [frame | intros].
    apply keeps_bind_raise.
Qed.

(** ** The tables an operation writes *)

Lemma keeps_save_other {X} (f : world -> X) i :
  (forall m t pk w, m = inst_model i -> f (log_save m pk (set_table m t w)) = f w) ->
  keeps f (save i).
Proof.
  intros Hf w r w'. unfold save.
  destruct (inst_pk i); intros [= _ <-]; now apply Hf.
Qed.

Lemma keeps_bind_post {A B X} (f : world -> X) (P : A -> Prop)
      (m : M A) (k : A -> M B) :
  keeps f m ->
  (forall w a w', m w = (Ok a, w') -> P a) ->
  (forall a, P a -> keeps f (k a)) ->
  keeps f (bind m k).
Proof.
  intros Hm HP Hk w r w' H.
  apply bind_inv in H as [(a & w1 & H1 & H2) | (e & H1 & _)].
  - rewrite (Hk a (HP _ _ _ H1) _ _ _ H2). exact (Hm _ _ _ H1).
  - exact (Hm _ _ _ H1).
Qed.

Lemma save_charge_model (c : instance) (items : gmap string val) (k1 k2 : string)
      (v1 v2 : val) :
  inst_model (setattr (setattr (setattr_items_except_card c items) k1 v1) k2 v2)
  = inst_model c.
Proof. now rewrite setattr_items_except_card_spec. Qed.

Lemma keeps_save_charge_others dos (c : instance) (resp : val) :
  inst_model c = PinCharge ->
  keeps cards (save_charge dos c resp) /\ keeps customers (save_charge dos c resp).
Proof.
  intros Hm. unfold save_charge, fromMinorUnits.
  split.
  all: apply keeps_bind; [frame | intros items]; cbv zeta.
  all: apply keeps_bind; [frame | intros amount].
  all: apply keeps_bind; [frame | intros keep].
  all: apply keeps_save_other; intros m t pk w ->.
  all: rewrite save_charge_model, Hm; reflexivity.
Qed.

Lemma keeps_save_card_others hasattr cd cc :
  keeps charges (save_card hasattr cd cc) /\ keeps customers (save_card hasattr cd cc).
Proof.
  unfold save_card. split; apply keeps_save_other; intros m t pk w ->; reflexivity.
Qed.

Lemma store_lookup_model (o : option options_t) (b : bool) w c w' :
  (if b then do token <- lift (options_getitem o "token"); find_customer token
   else ret None) w = (Ok (Some c), w') ->
  inst_model c = PinCustomer.
Proof.
  destruct b; [| intros [=]].
  intros H. apply bind_inv in H as [(token & w1 & _ & H) | (e & _ & [=])].
  unfold find_customer, gets in H. injection H as H _.
  now destruct (lookup_customer_Some _ _ _ H) as (pk & -> & _).
Qed.

(** X11: each operation writes only the tables of the entities it
    creates, for every input, reply and value of [commit]: [capture]
    never touches the StoredCards or the Customers, [purchase] never touches
    the Customers, [store] never touches the Charges, and [credit] and
    [authorize] write nothing to the Store at all. *)
Theorem operations_write_their_own_tables
        (sk ep : string) (tr : request -> result val)
        (hasattr : string -> bool) (dos : string -> option decimal) :
  (forall money auth o commit,
     keeps cards (capture sk ep tr dos money auth o commit) /\
     keeps customers (capture sk ep tr dos money auth o commit)) /\
  (forall money cc o commit,
     keeps customers (purchase sk ep tr hasattr dos money cc o commit)) /\
  (forall cc o commit, keeps charges (store sk ep tr hasattr cc o commit)) /\
  (forall money identification o,
     keeps db (credit sk ep tr money identification o)) /\
  (forall money cc o, keeps db (authorize sk ep tr money cc o)).
Proof.
  split; [| split; [| split; [| split]]].
  - intros money auth o commit. unfold capture.
    split.
    all: apply keeps_bind; [frame | intros data].
    all: apply keeps_bind; [frame | intros resp].
    all: apply keeps_bind; [frame | intros persist].
    all: apply keeps_bind; [| intros; frame].
    all: destruct persist; [| frame].
    all: apply keeps_bind; [frame | intros response]; cbv zeta.
    all: apply keeps_bind; [| intros; frame].
    all: now apply keeps_save_charge_others.
  - intros money cc o commit. unfold purchase.
    apply keeps_bind; [frame | intros data].
    apply keeps_bind; [frame | intros cd]. cbv zeta.
    apply keeps_bind; [frame | intros resp].
    apply keeps_bind; [frame | intros persist].
    apply keeps_bind; [| intros; frame].
    destruct persist; [| frame].
    apply keeps_bind; [frame | intros response].
    apply keeps_bind; [apply keeps_save_card_others | intros c]. cbv zeta.
    apply keeps_bind; [| intros; frame].
    now apply keeps_save_charge_others.
  - intros cc o commit. unfold store.
    apply keeps_bind; [frame | intros email].
    apply keeps_bind; [frame | intros cd]. cbv zeta.
    apply keeps_bind; [frame | intros has_token].
    apply keeps_bind; [frame | intros resp].
    apply keeps_bind; [frame | intros has_token'].
    apply (keeps_bind_post _
             (fun customer => forall c, customer = Some c -> inst_model c = PinCustomer)).
    { unfold find_customer. frame. }
    { intros w a w' H c ->. exact (store_lookup_model _ _ _ _ _ H). }
    intros customer Hcust.
    apply keeps_bind; [frame | intros persist].
    apply keeps_bind; [| intros; frame].
    destruct persist; [| frame].
    apply keeps_bind; [frame | intros response].
    apply keeps_bind; [apply keeps_save_card_others | intros c]. cbv zeta.
    apply keeps_bind; [frame | intros items].
    apply keeps_bind; [| intros; frame].
    apply keeps_save_other. intros m t pk w ->.
    rewrite setattr_items_except_card_spec. cbn [inst_model].
    destruct customer as [c0 |].
    + cbn [setattr inst_model]. now rewrite (Hcust c0 eq_refl).
    + reflexivity.
  - intros. unfold credit. frame.
  - intros. unfold authorize.
    apply keeps_bind; [frame | intros].
    apply keeps_bind; [frame | intros].
    apply keeps_bind_raise.
Qed.

(** ** The rows that [purchase] and [capture] save *)

Lemma lookup_envelope_entry (env old : gmap string val) (key : string) :
  key <> "card" -> old !! key = None ->
  (delete "card" env ∪ old) !! key = env !! key.
Proof.
  intros Hk Ho. rewrite lookup_union, lookup_delete_ne by congruence.
  rewrite Ho. now destruct (env !! key).
Qed.

Lemma save_charge_run dos (old : gmap string val) (l : loc)
      (items : gmap string val) (a : val) (d : decimal) (msg : string) (w : world) :
  heap w !! l = Some (ODict items) ->
  old !! "amount" = None -> old !! "error_message" = None ->
  items !! "amount" = Some a ->
  (forall w0, to_decimal dos a w0 = (Ok d, w0)) ->
  (default VNone (items !! "error_message") = VNone /\ msg = "") \/
  items !! "error_message" = Some (VStr msg) ->
  save_charge dos (Instance PinCharge None old) (VRef l) w =
    (Ok (Instance PinCharge (Some (length (charges w))) (charge_row items old d msg)),
     log_save PinCharge (length (charges w))
       (set_table PinCharge (charges w ++ [charge_row items old d msg])%list w)).
Proof.
  intros Hl Ho1 Ho2 Ha Hd Hm. unfold save_charge.
  unfold bind at 1. unfold py_items at 1. rewrite Hl. cbv zeta.
  rewrite setattr_items_except_card_spec. cbn [inst_model inst_pk inst_attrs].
  unfold fromMinorUnits, getattr. cbn [inst_attrs setattr].
  rewrite (lookup_envelope_entry items old "amount") by (congruence || discriminate).
  rewrite Ha. cbn [default].
  unfold bind at 1. unfold bind at 1. rewrite Hd. unfold ret at 1. cbv beta iota.
  rewrite lookup_insert_ne by discriminate.
  rewrite (lookup_envelope_entry items old "error_message")
    by (congruence || discriminate).
  assert (Hrow : forall keep : bool,
            py_truthy (default VNone (items !! "error_message")) w = (Ok keep, w) ->
            (if keep then default VNone (items !! "error_message") else VStr "")
            = VStr msg).
  { destruct Hm as [[Hn ->] | Hs].
    - rewrite Hn. cbn. now intros keep [= <-].
    - rewrite Hs. cbn. intros keep [= <-].
      destruct (String.eqb msg "") eqn:E; [| reflexivity].
      apply String.eqb_eq in E. now subst msg. }
  destruct (py_truthy (default VNone (items !! "error_message")) w)
    as [[keep | e] w1] eqn:Et.
  - assert (w1 = w) as ->.
    { destruct Hm as [[Hn _] | Hs]; [rewrite Hn in Et | rewrite Hs in Et];
        cbn in Et; now injection Et. }
    unfold bind at 1. rewrite Et. cbv beta iota.
    rewrite (Hrow keep eq_refl).
    unfold save. cbn [inst_pk inst_model inst_attrs table]. reflexivity.
  - destruct Hm as [[Hn _] | Hs]; [rewrite Hn in Et | rewrite Hs in Et];
      cbn in Et; discriminate Et.
Qed.

(** X12: what a committed [purchase] leaves in the Store.  When the reply
    has an envelope whose card has a name, whose amount converts with
    [Decimal(...)] to [d], and whose error message is absent, null or a
    string, the purchase appends one StoredCard and one Charge and nothing
    else: the Charge carries the entries of the envelope, its ['card'] is
    the reference to the StoredCard just saved, its amount is [d / 100.00],
    its error message is the string (the empty one for null); a returned
    result holds the Charge with the key the Store gave it. *)
Theorem purchase_saves_card_and_charge
        (sk ep : string) (tr : request -> result val)
        (hasattr : string -> bool) (dos : string -> option decimal)
        (money : money) (cc : CreditCard) (o : option options_t)
        (base : gmap string pval) (cd : gmap string string)
        (w : world) (lr le lc : loc) (d env card : gmap string val) (name : val)
        (a : val) (dc : decimal) (msg : string) :
  _pin_base money o = Ok base ->
  _pin_card cc o = Ok cd ->
  (forall req, tr req = Ok (VRef lr)) ->
  reply_at w lr le d env ->
  card_at w lr le lc env card ->
  card !! "name" = Some name ->
  env !! "amount" = Some a ->
  (forall w0, to_decimal dos a w0 = (Ok dc, w0)) ->
  (default VNone (env !! "error_message") = VNone /\ msg = "") \/
  env !! "error_message" = Some (VStr msg) ->
  let out := purchase sk ep tr hasattr dos money cc o true w in
  let card_pk := length (cards w) in
  let row := charge_row env {["card" := VCard card_pk]} dc msg in
  cards out.2 = (cards w ++ [inst_attrs (build_card hasattr cd cc)])%list /\
  charges out.2 = (charges w ++ [row])%list /\
  customers out.2 = customers w /\
  saves out.2 = (saves w ++ [(PinCard, card_pk); (PinCharge, length (charges w))])%list /\
  row !! "card" = Some (VCard card_pk) /\
  row !! "amount" = Some (VDec (dec_div_100_00 dc)) /\
  row !! "error_message" = Some (VStr msg) /\
  (forall key, key <> "card" -> key <> "amount" -> key <> "error_message" ->
     row !! key = env !! key) /\
  (forall res, out.1 = Ok res ->
     obj res = Some (Instance PinCharge (Some (length (charges w))) row)).
Proof.
  intros Hb Hc Htr Hreply Hcard Hn Ha Hd Hm out card_pk row.
  assert (Hrun : exists w4,
    out = _pin_response (VRef lr) "purchase"
            (Some (Instance PinCharge (Some (length (charges w))) row)) w4 /\
    cards w4 = (cards w ++ [inst_attrs (build_card hasattr cd cc)])%list /\
    charges w4 = (charges w ++ [row])%list /\
    customers w4 = customers w /\
    saves w4 = (saves w ++ [(PinCard, card_pk); (PinCharge, length (charges w))])%list).
  { subst out.
    rewrite (purchase_tail sk ep tr hasattr dos money cc o true base cd lr w
               Hb Hc (Htr _)).
    set (req := build_request sk ep POST "/charges" _).
    pose proof (reply_at_log_request req _ _ _ _ _ Hreply) as Hreply1.
    pose proof (card_at_log_request req _ _ _ _ _ _ Hcard) as Hcard1.
    eexists. split.
    - apply (tail_run _ lr le lc d env card name _ _ _ _ _ Hreply1 Hcard1 Hn).
      unfold save_card. unfold bind at 1. unfold save at 1.
      cbn [build_card setattr inst_pk inst_model inst_attrs table set_heap cards
           log_request default].
      unfold bind at 1.
      rewrite (save_charge_run dos _ (length (heap (log_request req w))) env a dc msg).
      + reflexivity.
      + cbn [heap log_save set_table set_heap].
        exact (heap_after_copy _ lr le env lc card Hcard1).
      + reflexivity.
      + reflexivity.
      + exact Ha.
      + exact Hd.
      + exact Hm.
    - cbn. rewrite <- app_assoc. repeat split. }
  destruct Hrun as (w4 & Hout & Hcards & Hcharges & Hcust & Hsaves).
  destruct out as [r w'] eqn:Eo. symmetry in Hout. cbn [fst snd].
  split; [rewrite (keeps_run cards _ _ _ _ Hout ltac:(frame)); exact Hcards |].
  split; [rewrite (keeps_run charges _ _ _ _ Hout ltac:(frame)); exact Hcharges |].
  split; [rewrite (keeps_run customers _ _ _ _ Hout ltac:(frame)); exact Hcust |].
  split; [rewrite (keeps_run saves _ _ _ _ Hout ltac:(frame)); exact Hsaves |].
  split; [| split; [| split; [| split]]].
  - unfold row, charge_row. rewrite !lookup_insert_ne by discriminate.
    rewrite lookup_union_r by apply lookup_delete_eq. apply lookup_insert_eq.
  - unfold row, charge_row. rewrite lookup_insert_ne by discriminate.
    apply lookup_insert_eq.
  - unfold row, charge_row. apply lookup_insert_eq.
  - intros key H1 H2 H3. unfold row, charge_row.
    rewrite !lookup_insert_ne by congruence.
    apply lookup_envelope_entry; [exact H1 |].
    apply lookup_singleton_ne. congruence.
  - intros res ->. exact (pin_response_obj _ _ _ _ _ _ Hout).
Qed.

Lemma purchase_saves_card_and_charge_witness :
  charges (purchase_run (reply_heap true "ch_1") true).2 =
    [charge_row (envelope true "ch_1") {["card" := VCard 0]} (Dec 999 0) ""] /\
  charge_row (envelope true "ch_1") {["card" := VCard 0]} (Dec 999 0) "" !! "amount"
    = Some (VDec (dec_div_100_00 (Dec 999 0))) /\
  dec_div_100_00 (Dec 999 0) = Dec 999 (-2).
Proof.
  destruct (reply_heap_shape true "ch_1" (world_with (reply_heap true "ch_1")) eq_refl)
    as [Hreply Hcard].
  assert (Hn : card_object !! "name" = Some (VStr "x")) by reflexivity.
  assert (Ha : envelope true "ch_1" !! "amount" = Some (VStr "999")) by reflexivity.
  assert (Hm : default VNone (envelope true "ch_1" !! "error_message") = VNone /\
               "" = "") by (split; reflexivity).
  destruct (purchase_saves_card_and_charge sk host transport hasattr
              decimal_of_int_literal amount card options _ _
              (world_with (reply_heap true "ch_1")) 0%nat 1%nat 2%nat
              {["response" := VRef 1%nat]} (envelope true "ch_1") card_object
              (VStr "x") (VStr "999") (Dec 999 0) ""
              eq_refl eq_refl (fun _ => eq_refl) Hreply Hcard Hn Ha
              (fun _ => eq_refl) (or_introl Hm))
    as (_ & Hcharges & _ & _ & _ & Hamount & _).
  split; [exact Hcharges |]. split; [exact Hamount |].
  vm_compute. reflexivity.
Defined.

(** X13: what a committed [capture] leaves in the Store.  Under the same
    conditions on the reply, the capture appends one Charge and nothing
    else; the Charge is built from the envelope alone: amount in major
    units, error message as a string, every other entry of the envelope
    but its card, and no ['card'] reference, since [capture] sets none. *)
Theorem capture_saves_charge_without_card
        (sk ep : string) (tr : request -> result val)
        (dos : string -> option decimal)
        (money : money) (auth : string) (o : option options_t)
        (data : gmap string pval)
        (w : world) (lr le lc : loc) (d env card : gmap string val) (name : val)
        (a : val) (dc : decimal) (msg : string) :
  capture_data money auth o = Ok data ->
  (forall req, tr req = Ok (VRef lr)) ->
  reply_at w lr le d env ->
  card_at w lr le lc env card ->
  card !! "name" = Some name ->
  env !! "amount" = Some a ->
  (forall w0, to_decimal dos a w0 = (Ok dc, w0)) ->
  (default VNone (env !! "error_message") = VNone /\ msg = "") \/
  env !! "error_message" = Some (VStr msg) ->
  let out := capture sk ep tr dos money auth o true w in
  let row := charge_row env ∅ dc msg in
  charges out.2 = (charges w ++ [row])%list /\
  saves out.2 = (saves w ++ [(PinCharge, length (charges w))])%list /\
  row !! "card" = None /\
  row !! "amount" = Some (VDec (dec_div_100_00 dc)) /\
  row !! "error_message" = Some (VStr msg) /\
  (forall key, key <> "card" -> key <> "amount" -> key <> "error_message" ->
     row !! key = env !! key) /\
  (forall res, out.1 = Ok res ->
     obj res = Some (Instance PinCharge (Some (length (charges w))) row)).
Proof.
  intros Hdata Htr Hreply Hcard Hn Ha Hd Hm out row.
  assert (Hrun : exists w4,
    out = _pin_response (VRef lr) "capture"
            (Some (Instance PinCharge (Some (length (charges w))) row)) w4 /\
    charges w4 = (charges w ++ [row])%list /\
    saves w4 = (saves w ++ [(PinCharge, length (charges w))])%list).
  { subst out.
    rewrite (capture_tail sk ep tr dos money auth o true data lr w Hdata (Htr _)).
    set (req := build_request sk ep POST "/charges" _).
    pose proof (reply_at_log_request req _ _ _ _ _ Hreply) as Hreply1.
    pose proof (card_at_log_request req _ _ _ _ _ _ Hcard) as Hcard1.
    eexists. split.
    - apply (tail_run _ lr le lc d env card name _ _ _ _ _ Hreply1 Hcard1 Hn).
      unfold bind at 1.
      rewrite (save_charge_run dos _ (length (heap (log_request req w))) env a dc msg).
      + reflexivity.
      + exact (heap_after_copy _ lr le env lc card Hcard1).
      + reflexivity.
      + reflexivity.
      + exact Ha.
      + exact Hd.
      + exact Hm.
    - cbn. repeat split. }
  destruct Hrun as (w4 & Hout & Hcharges & Hsaves).
  destruct out as [r w'] eqn:Eo. symmetry in Hout. cbn [fst snd].
  split; [rewrite (keeps_run charges _ _ _ _ Hout ltac:(frame)); exact Hcharges |].
  split; [rewrite (keeps_run saves _ _ _ _ Hout ltac:(frame)); exact Hsaves |].
  split; [| split; [| split; [| split]]].
  - unfold row, charge_row. rewrite !lookup_insert_ne by discriminate.
    rewrite lookup_union_r by apply lookup_delete_eq. apply lookup_empty.
  - unfold row, charge_row. rewrite lookup_insert_ne by discriminate.
    apply lookup_insert_eq.
  - unfold row, charge_row. apply lookup_insert_eq.
  - intros key H1 H2 H3. unfold row, charge_row.
    rewrite !lookup_insert_ne by congruence.
    apply lookup_envelope_entry; [exact H1 | apply lookup_empty].
  - intros res ->. exact (pin_response_obj _ _ _ _ _ _ Hout).
Qed.

Lemma capture_saves_charge_without_card_witness :
  charges (capture_run "cus_123" (reply_heap true "ch_1") true).2 =
    [charge_row (envelope true "ch_1") ∅ (Dec 999 0) ""] /\
  charge_row (envelope true "ch_1") ∅ (Dec 999 0) "" !! "card" = None /\
  charge_row (envelope true "ch_1") ∅ (Dec 999 0) "" !! "token" = Some (VStr "ch_1").
Proof.
  destruct (reply_heap_shape true "ch_1" (world_with (reply_heap true "ch_1")) eq_refl)
    as [Hreply Hcard].
  assert (Hn : card_object !! "name" = Some (VStr "x")) by reflexivity.
  assert (Ha : envelope true "ch_1" !! "amount" = Some (VStr "999")) by reflexivity.
  assert (Hm : default VNone (envelope true "ch_1" !! "error_message") = VNone /\
               "" = "") by (split; reflexivity).
  destruct (capture_saves_charge_without_card sk host transport
              decimal_of_int_literal amount "cus_123" options _
              (world_with (reply_heap true "ch_1")) 0%nat 1%nat 2%nat
              {["response" := VRef 1%nat]} (envelope true "ch_1") card_object
              (VStr "x") (VStr "999") (Dec 999 0) ""
              eq_refl (fun _ => eq_refl) Hreply Hcard Hn Ha
              (fun _ => eq_refl) (or_introl Hm))
    as (Hcharges & _ & Hnocard & _ & _ & Hkeys & _).
  split; [exact Hcharges |]. split; [exact Hnocard |].
  rewrite Hkeys by discriminate. reflexivity.
Defined.

(** ** A failure inside the persistence branch *)

Lemma tail_run_raise (w : world) (lr le lc : loc) (d env card : gmap string val)
      (name : val) (rest : val -> M (option instance)) (dflt : option instance)
      (t : string) (e : exn) (w4 : world) :
  reply_at w lr le d env ->
  card_at w lr le lc env card ->
  card !! "name" = Some name ->
  rest (VRef (length (heap w))) (set_heap (heap_after w env card lc) w) = (Raise e, w4) ->
  tail_of_operation lr rest dflt t true w = (Raise e, w4).
Proof.
  intros Hreply Hcard Hn Hrest. unfold tail_of_operation.
  rewrite (bind_ok _ _ _ _ _ (commit_and_response_envelope w lr le d env Hreply)).
  unfold bind at 1. unfold bind at 1.
  rewrite (copy_response_run w lr le d env Hreply lc card Hcard name Hn).
  now rewrite Hrest.
Qed.

Lemma save_charge_no_amount dos (old : gmap string val) (l : loc)
      (items : gmap string val) (w : world) :
  heap w !! l = Some (ODict items) ->
  old !! "amount" = None ->
  default VNone (items !! "amount") = VNone ->
  save_charge dos (Instance PinCharge None old) (VRef l) w = (Raise TypeError, w).
Proof.
  intros Hl Ho Ha. unfold save_charge.
  unfold bind at 1. unfold py_items at 1. rewrite Hl. cbv zeta.
  rewrite setattr_items_except_card_spec. cbn [inst_model inst_pk inst_attrs].
  unfold fromMinorUnits, getattr. cbn [inst_attrs setattr].
  rewrite (lookup_envelope_entry items old "amount") by (congruence || discriminate).
  rewrite Ha. reflexivity.
Qed.

(** X14: the persistence branch is not atomic.  When a committed
    [purchase] gets an envelope whose amount is null or absent,
    [Decimal(charge.amount)] raises [TypeError] after [card.save()] has
    run: the purchase raises, no Charge is saved and no notification is
    published, but the StoredCard stays in the Store and the name is gone
    from the card of the raw reply.  [capture], which saves nothing before
    the conversion, leaves the Store as it was. *)
Theorem purchase_failure_leaves_the_card
        (sk ep : string) (tr : request -> result val)
        (hasattr : string -> bool) (dos : string -> option decimal)
        (w : world) (lr le lc : loc) (d env card : gmap string val) (name : val) :
  (forall req, tr req = Ok (VRef lr)) ->
  reply_at w lr le d env ->
  card_at w lr le lc env card ->
  card !! "name" = Some name ->
  default VNone (env !! "amount") = VNone ->
  (forall money cc o base cd,
     _pin_base money o = Ok base -> _pin_card cc o = Ok cd ->
     let out := purchase sk ep tr hasattr dos money cc o true w in
     out.1 = Raise TypeError /\
     cards out.2 = (cards w ++ [inst_attrs (build_card hasattr cd cc)])%list /\
     charges out.2 = charges w /\
     saves out.2 = (saves w ++ [(PinCard, length (cards w))])%list /\
     signals out.2 = signals w /\
     heap out.2 !! lc = Some (ODict (delete "name" card))) /\
  (forall money auth o data,
     capture_data money auth o = Ok data ->
     let out := capture sk ep tr dos money auth o true w in
     out.1 = Raise TypeError /\ db out.2 = db w /\ signals out.2 = signals w /\
     heap out.2 !! lc = Some (ODict (delete "name" card))).
Proof.
  intros Htr Hreply Hcard Hn Ha. split.
  - intros money cc o base cd Hb Hc out. subst out.
    rewrite (purchase_tail sk ep tr hasattr dos money cc o true base cd lr w
               Hb Hc (Htr _)).
    set (req := build_request sk ep POST "/charges" _).
    pose proof (reply_at_log_request req _ _ _ _ _ Hreply) as Hreply1.
    pose proof (card_at_log_request req _ _ _ _ _ _ Hcard) as Hcard1.
    erewrite (tail_run_raise _ lr le lc d env card name _ _ _ _ _ Hreply1 Hcard1 Hn).
    2:{ unfold save_card. unfold bind at 1. unfold save at 1.
        cbn [build_card setattr inst_pk inst_model inst_attrs table set_heap cards
             log_request default].
        unfold bind at 1.
        rewrite (save_charge_no_amount dos _ (length (heap (log_request req w))) env).
        - reflexivity.
        - cbn [heap log_save set_table set_heap].
          exact (heap_after_copy _ lr le env lc card Hcard1).
        - reflexivity.
        - exact Ha. }
    cbn [fst snd]. repeat split.
    cbn [heap log_save set_table set_heap].
    exact (heap_after_card _ lr le env lc card Hcard1).
  - intros money auth o data Hdata out. subst out.
    rewrite (capture_tail sk ep tr dos money auth o true data lr w Hdata (Htr _)).
    set (req := build_request sk ep POST "/charges" _).
    pose proof (reply_at_log_request req _ _ _ _ _ Hreply) as Hreply1.
    pose proof (card_at_log_request req _ _ _ _ _ _ Hcard) as Hcard1.
    erewrite (tail_run_raise _ lr le lc d env card name _ _ _ _ _ Hreply1 Hcard1 Hn).
    2:{ unfold bind at 1.
        rewrite (save_charge_no_amount dos _ (length (heap (log_request req w))) env).
        - reflexivity.
        - exact (heap_after_copy _ lr le env lc card Hcard1).
        - reflexivity.
        - exact Ha. }
    cbn [fst snd]. repeat split.
    cbn [heap set_heap].
    exact (heap_after_card _ lr le env lc card Hcard1).
Qed.

Lemma purchase_failure_leaves_the_card_witness :
  let h := [ODict {["response" := VRef 1%nat]};
            ODict (list_to_map [("token", VStr "ch_1"); ("amount", VNone);
                                ("card", VRef 2%nat)]);
            ODict card_object] in
  (purchase_run h true).1 = Raise TypeError /\
  length (cards (purchase_run h true).2) = 1%nat /\
  charges (purchase_run h true).2 = [].
Proof.
  intros h.
  pose (env := (list_to_map [("token", VStr "ch_1"); ("amount", VNone);
                             ("card", VRef 2%nat)] : gmap string val)).
  assert (Hreply : reply_at (world_with h) 0%nat 1%nat {["response" := VRef 1%nat]} env).
  { repeat split. }
  assert (Hcard : card_at (world_with h) 0%nat 1%nat 2%nat env card_object).
  { repeat split; try reflexivity; discriminate. }
  assert (Hn : card_object !! "name" = Some (VStr "x")) by reflexivity.
  assert (Ha : default VNone (env !! "amount") = VNone) by reflexivity.
  destruct (proj1 (purchase_failure_leaves_the_card sk host transport hasattr
                     decimal_of_int_literal (world_with h) 0%nat 1%nat 2%nat
                     {["response" := VRef 1%nat]} env card_object (VStr "x")
                     (fun _ => eq_refl) Hreply Hcard Hn Ha)
                  amount card options _ _ eq_refl eq_refl)
    as (Hr & Hcards & Hcharges & _).
  split; [exact Hr |]. split; [| exact Hcharges].
  unfold purchase_run. rewrite Hcards. reflexivity.
Defined.

(** ** The Customer that [store] saves can be looked up *)

Lemma store_rest_run (hasattr : string -> bool) (cd : gmap string string)
      (cc : CreditCard) (w : world) (lr le lc : loc) (env card : gmap string val)
      (customer : option instance) :
  card_at w lr le lc env card ->
  (forall c, customer = Some c -> inst_model c = PinCustomer) ->
  let row := customer_row env (length (cards w))
               (from_option inst_attrs ∅ customer) in
  let saved :=
    match customer ≫= inst_pk with
    | Some pk => (pk, <[pk := row]> (customers w))
    | None => (length (customers w), (customers w ++ [row])%list)
    end in
  exists w4,
    store_rest hasattr cd cc customer (VRef (length (heap w)))
               (set_heap (heap_after w env card lc) w)
    = (Ok (Some (Instance PinCustomer (Some saved.1) row)), w4) /\
    customers w4 = saved.2.
Proof.
  intros Hcard Hmodel row saved.
  unfold store_rest, save_card.
  unfold bind at 1. unfold save at 1. cbn [build_card setattr inst_pk inst_model].
  cbn [table set_heap cards default].
  unfold bind at 1. unfold py_items at 1.
  cbn [heap log_save set_table set_heap].
  rewrite (heap_after_copy w lr le env lc card Hcard).
  rewrite setattr_items_except_card_spec.
  destruct customer as [[m [pk |] old] |]; cbn [mbind option_bind inst_pk] in saved.
  - pose proof (Hmodel _ eq_refl) as Hm. cbn in Hm. subst m.
    eexists. split; reflexivity.
  - pose proof (Hmodel _ eq_refl) as Hm. cbn in Hm. subst m.
    eexists. split; reflexivity.
  - eexists. split; reflexivity.
Qed.

Lemma list_find_snoc {A} (P : A -> Prop) `{!forall x, Decision (P x)}
      (l : list A) (x : A) :
  list_find P l = None -> P x -> list_find P (l ++ [x]) = Some (length l, x).
Proof.
  intros Hl Hx. apply list_find_Some. split; [| split].
  - now apply list_lookup_middle.
  - exact Hx.
  - intros j y Hj Hlt. rewrite lookup_app_l in Hj by exact Hlt.
    apply list_find_None in Hl. rewrite Forall_forall in Hl.
    apply Hl. eapply list_elem_of_lookup_2. exact Hj.
Qed.

Lemma list_find_overwrite {A} (P : A -> Prop) `{!forall x, Decision (P x)}
      (l : list A) (i : nat) (x y : A) :
  list_find P l = Some (i, x) -> P y -> list_find P (<[i := y]> l) = Some (i, y).
Proof.
  intros Hl Hy. apply list_find_Some in Hl as (Hi & _ & Hmin).
  apply list_find_Some. split; [| split].
  - apply list_lookup_insert_eq. eapply lookup_lt_Some. exact Hi.
  - exact Hy.
  - intros j z Hj Hlt. rewrite list_lookup_insert_ne in Hj by lia.
    exact (Hmin j z Hj Hlt).
Qed.

Lemma customer_row_entry env card_pk old key :
  key <> "card" -> is_Some (env !! key) ->
  customer_row env card_pk old !! key = env !! key.
Proof.
  intros Hk [v Hv]. unfold customer_row.
  rewrite lookup_union, lookup_delete_ne by congruence.
  rewrite Hv. now destruct (<["card":=VCard card_pk]> old !! key).
Qed.

(** X15: a Customer saved by [store] is found by its token afterwards.
    With [commit] and a reply whose envelope carries the customer token [t]
    and a card with a name, when the Store held no Customer with that token
    and none was looked up, or when the Customer looked up by
    [options['token'] = t] was found, the lookup by [t] in the Store that
    [store] leaves yields the entity that [store] hands back: it sits at
    its key in the Customers, carries the token and refers to the StoredCard
    just saved; in the second case its key is the one it had and the table
    has not grown. *)
Theorem stored_customer_is_found
        (sk ep : string) (tr : request -> result val) (hasattr : string -> bool)
        (cc : CreditCard) (opts : options_t) (email : string)
        (cd : gmap string string)
        (w : world) (lr le lc : loc) (d env card : gmap string val) (name : val)
        (t : string) :
  scalars opts !! "email" = Some email ->
  _pin_card cc (Some opts) = Ok cd ->
  (forall req, tr req = Ok (VRef lr)) ->
  reply_at w lr le d env ->
  card_at w lr le lc env card ->
  card !! "name" = Some name ->
  env !! "token" = Some (VStr t) ->
  match token_customer (Some opts) w with
  | Some _ => scalars opts !! "token" = Some t
  | None => lookup_customer t w = None
  end ->
  let out := store sk ep tr hasattr cc (Some opts) true w in
  exists c,
    lookup_customer t out.2 = Some c /\
    stored_in out.2 c /\
    inst_model c = PinCustomer /\
    inst_attrs c !! "token" = Some (VStr t) /\
    inst_attrs c !! "card" = Some (VCard (length (cards w))) /\
    (forall res, out.1 = Ok res -> obj res = Some c) /\
    match token_customer (Some opts) w with
    | Some c0 => inst_pk c = inst_pk c0 /\
                 length (customers out.2) = length (customers w)
    | None => inst_pk c = Some (length (customers w)) /\
              length (customers out.2) = S (length (customers w))
    end.
Proof.
  intros He Hc Htr Hreply Hcard Hn Ht Hfound out. subst out.
  rewrite (store_tail sk ep tr hasattr cc opts true email cd lr w He Hc (Htr _)).
  set (req := store_request sk ep (Some opts) _).
  pose proof (reply_at_log_request req _ _ _ _ _ Hreply) as Hreply1.
  pose proof (card_at_log_request req _ _ _ _ _ _ Hcard) as Hcard1.
  assert (Hmodel : forall c, token_customer (Some opts) w = Some c ->
                             inst_model c = PinCustomer).
  { intros c Hc0. unfold token_customer in Hc0.
    destruct (scalars opts !! "token") as [token |]; [| discriminate].
    now destruct (lookup_customer_Some _ _ _ Hc0) as (pk & -> & _). }
  destruct (store_rest_run hasattr cd cc (log_request req w) lr le lc env card
              (token_customer (Some opts) w) Hcard1 Hmodel) as (w4 & Hrun & Hcust).
  rewrite (tail_run _ lr le lc d env card name _ _ _ _ _ Hreply1 Hcard1 Hn Hrun).
  cbn [cards customers log_request] in Hrun, Hcust |- *.
  set (row := customer_row env (length (cards w))
                (from_option inst_attrs ∅ (token_customer (Some opts) w))) in *.
  assert (Hrow_t : row !! "token" = Some (VStr t)).
  { unfold row. rewrite customer_row_entry by (rewrite ?Ht; eauto; discriminate).
    exact Ht. }
  destruct (_pin_response (VRef lr) "store" _ w4) as [r w'] eqn:Ep. cbn [fst snd].
  pose proof (keeps_run customers _ _ _ _ Ep ltac:(frame)) as Hk.
  match type of Ep with
  | _pin_response _ _ (Some ?c) _ = _ => exists c
  end.
  split; [| split; [| split; [| split; [| split; [| split]]]]].
  4: exact Hrow_t.
  4: apply customer_row_card.
  4: intros res ->; exact (pin_response_obj _ _ _ _ _ _ Ep).
  3: reflexivity.
  all: destruct (token_customer (Some opts) w) as [c0 |] eqn:Etc;
    cbn [mbind option_bind from_option] in *.
  all: try (unfold token_customer in Etc; rewrite Hfound in Etc;
            pose proof (lookup_customer_Some _ _ _ Etc) as (pk & Ec0 & Hpk & _);
            rewrite Ec0 in Hcust |- *; cbn [inst_pk fst snd] in Hcust |- *).
  - unfold lookup_customer at 1. rewrite Hk, Hcust.
    unfold lookup_customer in Etc.
    destruct (list_find _ (customers w)) as [[pk' row'] |] eqn:El; [| discriminate].
    injection Etc as Etc. rewrite Ec0 in Etc. injection Etc as -> _.
    now rewrite (list_find_overwrite _ _ _ _ row El Hrow_t).
  - unfold lookup_customer at 1. rewrite Hk, Hcust. cbn [fst snd].
    unfold lookup_customer in Hfound.
    destruct (list_find _ (customers w)) as [[pk' row'] |] eqn:El; [discriminate |].
    now rewrite (list_find_snoc _ _ row El Hrow_t).
  - exists pk. split; [reflexivity |]. cbn [inst_model inst_attrs table].
    rewrite Hk, Hcust. apply list_lookup_insert_eq. eapply lookup_lt_Some. exact Hpk.
  - exists (length (customers w)). split; [reflexivity |].
    cbn [inst_model inst_attrs table]. rewrite Hk, Hcust. cbn [snd].
    now apply list_lookup_middle.
  - split; [reflexivity |]. rewrite Hk, Hcust. apply length_insert.
  - split; [reflexivity |]. rewrite Hk, Hcust. cbn [snd].
    rewrite length_app. cbn. lia.
Qed.

Lemma stored_customer_is_found_witness :
  exists c,
    lookup_customer "cus_1" (store_run (reply_heap true "cus_1") true).2 = Some c /\
    inst_attrs c !! "card" = Some (VCard 0) /\
    inst_pk c = Some 0%nat.
Proof.
  destruct (reply_heap_shape true "cus_1"
              (world_with_customer (reply_heap true "cus_1")) eq_refl)
    as [Hreply Hcard].
  pose (opts := Options (list_to_map [("email", "ada@example.org"); ("token", "cus_1")])
                        (Some address)).
  assert (He : scalars opts !! "email" = Some "ada@example.org") by reflexivity.
  assert (Hn : card_object !! "name" = Some (VStr "x")) by reflexivity.
  assert (Ht : envelope true "cus_1" !! "token" = Some (VStr "cus_1")) by reflexivity.
  assert (Hfound :
    match token_customer (Some opts) (world_with_customer (reply_heap true "cus_1")) with
    | Some _ => scalars opts !! "token" = Some "cus_1"
    | None => lookup_customer "cus_1" (world_with_customer (reply_heap true "cus_1"))
              = None
    end) by reflexivity.
  destruct (stored_customer_is_found sk host transport hasattr card
              opts "ada@example.org" _
              (world_with_customer (reply_heap true "cus_1"))
              0%nat 1%nat 2%nat {["response" := VRef 1%nat]}
              (envelope true "cus_1") card_object (VStr "x") "cus_1"
              He eq_refl (fun _ => eq_refl) Hreply Hcard Hn Ht Hfound)
    as (c & Hl & _ & _ & _ & Hc & _ & Hpk).
  exists c. split; [exact Hl |]. split; [exact Hc |]. exact (proj1 Hpk).
Defined.

(** ** The StoredCard that [purchase] and [store] save *)

Lemma pin_card_number_cvc (cc : CreditCard) (o : option options_t)
      (cd : gmap string string) :
  _pin_card cc o = Ok cd ->
  cd !! "number" = Some (number cc) /\
  cd !! "cvc" = Some (verification_value cc) /\
  cd !! "name" = Some (first_name cc +:+ " " +:+ last_name cc).
Proof.
  intros H. unfold _pin_card in H.
  destruct o as [opts |]; [| discriminate].
  destruct (billing_address opts) as [address |]; [| discriminate].
  destruct (dict_getitem address "address1"); [| discriminate].
  destruct (dict_getitem address "city"); [| discriminate].
  destruct (dict_getitem address "zip"); [| discriminate].
  destruct (dict_getitem address "state"); [| discriminate].
  destruct (dict_getitem address "country"); [| discriminate].
  cbn [rbind] in H. injection H as <-. repeat split.
Qed.

(** X16: the StoredCard row that [purchase] and [store] build from the
    card payload.  A wire field is copied exactly when the StoredCard has
    an attribute of that name, so nothing the model lacks is ever stored;
    the two names always come from the credit card, whatever the payload
    holds under those keys.  When the model has the attributes, the card
    number and the verification value are stored as they were sent. *)
Theorem stored_card_fields (hasattr : string -> bool) (cc : CreditCard)
        (o : option options_t) (cd : gmap string string) :
  _pin_card cc o = Ok cd ->
  let row := inst_attrs (build_card hasattr cd cc) in
  row !! "first_name" = Some (VStr (first_name cc)) /\
  row !! "last_name" = Some (VStr (last_name cc)) /\
  (forall key, key <> "first_name" -> key <> "last_name" ->
     row !! key = if hasattr key then VStr <$> cd !! key else None) /\
  (forall key, is_Some (row !! key) ->
     hasattr key = true \/ key = "first_name" \/ key = "last_name") /\
  (hasattr "number" = true -> row !! "number" = Some (VStr (number cc))) /\
  (hasattr "cvc" = true -> row !! "cvc" = Some (VStr (verification_value cc))) /\
  inst_model (build_card hasattr cd cc) = PinCard /\
  inst_pk (build_card hasattr cd cc) = None.
Proof.
  intros Hcd row.
  assert (Hkey : forall key, key <> "first_name" -> key <> "last_name" ->
            row !! key = if hasattr key then VStr <$> cd !! key else None).
  { intros key H1 H2. unfold row, build_card. cbn [setattr inst_attrs].
    rewrite !lookup_insert_ne by congruence. rewrite lookup_fmap.
    destruct (hasattr key) eqn:E.
    - destruct (cd !! key) as [v |] eqn:Ev.
      + now rewrite (map_lookup_filter_Some_2 _ _ _ _ Ev E).
      + rewrite map_lookup_filter_None_2; [reflexivity | now left].
    - rewrite map_lookup_filter_None_2; [reflexivity |].
      right. intros v _. cbn. congruence. }
  destruct (pin_card_number_cvc cc o cd Hcd) as (Hnum & Hcvc & _).
  split; [| split; [| split; [exact Hkey | split; [| split; [| split]]]]].
  - unfold row, build_card. cbn [setattr inst_attrs].
    rewrite lookup_insert_ne by discriminate. apply lookup_insert_eq.
  - unfold row, build_card. cbn [setattr inst_attrs]. apply lookup_insert_eq.
  - intros key [v Hv].
    destruct (decide (key = "first_name")) as [-> | H1]; [auto |].
    destruct (decide (key = "last_name")) as [-> | H2]; [auto |].
    left. rewrite (Hkey key H1 H2) in Hv.
    destruct (hasattr key); [reflexivity | discriminate].
  - intros H. rewrite Hkey by discriminate. now rewrite H, Hnum.
  - intros H. rewrite Hkey by discriminate. now rewrite H, Hcvc.
  - split; reflexivity.
Qed.

Lemma stored_card_fields_witness :
  exists cd,
    _pin_card card options = Ok cd /\
    inst_attrs (build_card hasattr cd card) !! "name" = None /\
    inst_attrs (build_card hasattr cd card) !! "number"
      = Some (VStr "4200000000000000").
Proof.
  assert (Hcd : exists cd, _pin_card card options = Ok cd)
    by (eexists; reflexivity).
  destruct Hcd as (cd & Hcd).
  destruct (stored_card_fields hasattr card options cd Hcd)
    as (_ & _ & H & _ & Hnum & _).
  exists cd. split; [exact Hcd |]. split; [| exact (Hnum eq_refl)].
  rewrite (H "name") by discriminate. reflexivity.
Defined.
